(** * Huawei-TCX-Converter: a shallow embedding of the conversion pipeline

    The development follows [Huawei-TCX-Converter.py] function by function:
    [read_file] (with its local [_normalize_timestamp]), [filter_data],
    [process_gps] (with its local [_vincenty]), [calculate_lap_stats],
    [merge_data], [file_details], [generate_xml], [save_xml] and [main].

    Numbers.  Python floats and ints are modelled by exact rationals [Q]:
    comparisons are the numeric ones ([Qeq_bool], [Qle_bool]), arithmetic is
    exact, and rounding of IEEE doubles is not modelled.  The transcendental
    functions of Python's [math] module used by [_vincenty] are an interface
    ([MathLib]).

    Control.  A bare [except:] followed by [exit()] is modelled by [None];
    loops that remove from the list they iterate are modelled with the index
    of Python's list iterator written out. *)

From Stdlib Require Import ZArith QArith Qround Qabs Qpower List Sorted String Ascii Bool Lia.
Import ListNotations.

Local Open Scope Q_scope.

(** ** Python values *)

(** A cell of a seven-slot record: the blank string [''] or a number. *)
Inductive cell : Type :=
| Blank : cell
| Num : Q -> cell.

(** Truthiness as used by [if entry[x]:] : [''], [0] and [0.0] are false. *)
Definition truthy (c : cell) : bool :=
  match c with
  | Blank => false
  | Num q => negb (Qeq_bool q 0)
  end.

(** Python [==] between two cells. *)
Definition cell_eqb (a b : cell) : bool :=
  match a, b with
  | Blank, Blank => true
  | Num x, Num y => Qeq_bool x y
  | _, _ => false
  end.

(** [a < k] where [a] is a cell: comparing [''] with a number raises
    [TypeError], modelled by [None]. *)
Definition cell_ltb (a : cell) (k : Q) : option bool :=
  match a with
  | Blank => None
  | Num x => Some (negb (Qle_bool k x))
  end.

Definition cell_gtb (a : cell) (k : Q) : option bool :=
  match a with
  | Blank => None
  | Num x => Some (negb (Qle_bool x k))
  end.

(** [a - b] on cells; [TypeError] when one side is [''] (two blanks also
    raise). *)
Definition cell_sub (a b : cell) : option Q :=
  match a, b with
  | Num x, Num y => Some (x - y)
  | _, _ => None
  end.

(** The record every branch of [read_file] builds:
    [[time, lat, long, alti, dist, hr, cad]].  Slot 0 is always a number;
    the other slots are numbers or blanks. *)
Record row : Type := mkRow {
  time : Q;
  lat : cell;
  long : cell;
  alti : cell;
  dist : cell;
  hr : cell;
  cad : cell
}.

(** [entry[x]] for [x] in [range(1,7)]. *)
Definition getx (x : nat) (r : row) : cell :=
  match x with
  | 1%nat => lat r
  | 2%nat => long r
  | 3%nat => alti r
  | 4%nat => dist r
  | 5%nat => hr r
  | _ => cad r
  end.

(** [entry[x] = v] for [x] in [range(1,7)]. *)
Definition setx (x : nat) (v : cell) (r : row) : row :=
  match x with
  | 1%nat => mkRow (time r) v (long r) (alti r) (dist r) (hr r) (cad r)
  | 2%nat => mkRow (time r) (lat r) v (alti r) (dist r) (hr r) (cad r)
  | 3%nat => mkRow (time r) (lat r) (long r) v (dist r) (hr r) (cad r)
  | 4%nat => mkRow (time r) (lat r) (long r) (alti r) v (hr r) (cad r)
  | 5%nat => mkRow (time r) (lat r) (long r) (alti r) (dist r) v (cad r)
  | _ => mkRow (time r) (lat r) (long r) (alti r) (dist r) (hr r) v
  end.

(** Python [==] between two records (element-wise list equality). *)
Definition row_eqb (a b : row) : bool :=
  Qeq_bool (time a) (time b) && cell_eqb (lat a) (lat b)
  && cell_eqb (long a) (long b) && cell_eqb (alti a) (alti b)
  && cell_eqb (dist a) (dist b) && cell_eqb (hr a) (hr b)
  && cell_eqb (cad a) (cad b).

(** [l.remove(x)]: drop the first element equal to [x]. *)
Fixpoint remove_first (x : row) (l : list row) : list row :=
  match l with
  | [] => []
  | y :: tl => if row_eqb y x then tl else y :: remove_first x tl
  end.

(** [l[i] = v] on a list that is long enough (no change otherwise). *)
Fixpoint list_set {A : Type} (i : nat) (v : A) (l : list A) : list A :=
  match l, i with
  | [], _ => []
  | _ :: tl, O => v :: tl
  | y :: tl, S j => y :: list_set j v tl
  end.

(** The dictionary [data] with its five keys. *)
Record dataset : Type := mkData {
  gps : list row;
  alti_s : list row;
  hr_s : list row;
  cad_s : list row;
  lap : list (list Q)
}.

(** ** Timestamp normalisation *)

(** Largest [k] with [10^k <= n], for [n >= 1] (number of decimal digits
    minus one); [fuel] bounds the number of divisions by ten. *)
Fixpoint ilog10_aux (fuel : nat) (n : Z) : Z :=
  match fuel with
  | O => 0%Z
  | S f => if (n <? 10)%Z then 0%Z else (1 + ilog10_aux f (n / 10))%Z
  end.

Definition ilog10 (n : Z) : Z := ilog10_aux (S (Z.to_nat (Z.log2 n))) n.

(** [int(math.log10(t))]: [math.log10] raises [ValueError] for [t <= 0]; the
    conversion [int] truncates toward zero, which is [floor (log10 t)] for
    [t >= 1] and [- floor (log10 (1/t))] for [0 < t < 1]. *)
Definition int_log10 (t : Q) : option Z :=
  if Qle_bool t 0 then None
  else if Qle_bool 1 t then Some (ilog10 (Qfloor t))
  else Some (- ilog10 (Qfloor (/ t)))%Z.

Definition _normalize_timestamp (timestamp : Q) : option Q :=
  match int_log10 timestamp with
  | None => None
  | Some oom =>
      if (oom =? 9)%Z then Some timestamp
      else
        let divisor :=
          if (oom >? 9)%Z then Qpower 10 (oom - 9)
          else Qpower (1 # 10) (9 - oom) in
        Some (Qred (timestamp / divisor))
  end.

(** ** Reading the text of a line *)

Local Open Scope string_scope.
Local Open Scope list_scope.

(** [None] stands for a raised exception throughout. *)
Notation "x <- e ;; k" :=
  (match e with Some x => k | None => None end)
    (at level 61, e at next level, right associativity).

(** [s.split(sep)] for a one-character separator: every occurrence splits,
    and the result is never empty. *)
Fixpoint str_split (sep : ascii) (s : string) : list string :=
  match s with
  | EmptyString => [EmptyString]
  | String c r =>
      if Ascii.eqb c sep then EmptyString :: str_split sep r
      else
        match str_split sep r with
        | [] => [String c EmptyString]
        | h :: tl => String c h :: tl
        end
  end.

(** [line.split('=')[x].split(';')[0]]; [IndexError] when the line has
    fewer than [x] equal signs. *)
Definition field (line : string) (x : nat) : option string :=
  f <- nth_error (str_split "=" line) x ;;
  Some (hd EmptyString (str_split ";" f)).

Definition is_space (c : ascii) : bool :=
  let n := nat_of_ascii c in
  (n =? 32)%nat || ((9 <=? n)%nat && (n <=? 13)%nat).

Fixpoint lstrip (s : string) : string :=
  match s with
  | EmptyString => EmptyString
  | String c r => if is_space c then lstrip r else s
  end.

Fixpoint rstrip (s : string) : string :=
  match s with
  | EmptyString => EmptyString
  | String c r =>
      match rstrip r with
      | EmptyString => if is_space c then EmptyString else String c EmptyString
      | r' => String c r'
      end
  end.

Definition strip (s : string) : string := rstrip (lstrip s).

Definition digit_of (c : ascii) : option Z :=
  let n := nat_of_ascii c in
  if (48 <=? n)%nat && (n <=? 57)%nat then Some (Z.of_nat (n - 48)) else None.

(** Reads a maximal run of decimal digits: the value accumulated on [acc],
    how many digits were read, and the rest of the text. *)
Fixpoint take_digits (s : string) (acc : Z) (cnt : nat) : Z * nat * string :=
  match s with
  | EmptyString => (acc, cnt, s)
  | String c r =>
      match digit_of c with
      | Some d => take_digits r (10 * acc + d)%Z (S cnt)
      | None => (acc, cnt, s)
      end
  end.

Definition take_sign (s : string) : bool * string :=
  match s with
  | String "-" r => (true, r)
  | String "+" r => (false, r)
  | _ => (false, s)
  end.

(** The exponent part of a float literal: nothing, or [e]/[E], an optional
    sign and at least one digit, up to the end of the text. *)
Definition take_exponent (s : string) : option Z :=
  match s with
  | EmptyString => Some 0%Z
  | String c r =>
      if Ascii.eqb c "e" || Ascii.eqb c "E" then
        let (neg, r1) := take_sign r in
        match take_digits r1 0 0 with
        | (_, O, _) => None
        | (e, _, EmptyString) => Some (if neg then (- e)%Z else e)
        | _ => None
        end
      else None
  end.

(** [float(s)] on the decimal literals a HiTrack file contains, with the
    exact value of the literal: surrounding white space, a sign, digits with
    an optional point, an optional exponent.  Anything else is a
    [ValueError]; the spellings [inf], [nan] and digit-grouping underscores,
    which Python also accepts, are outside this model. *)
Definition py_float (s : string) : option Q :=
  let (neg, s1) := take_sign (strip s) in
  let '(ip, ni, s2) := take_digits s1 0 0 in
  let '(m, nf, s3) :=
    match s2 with
    | String "." r => take_digits r ip 0
    | _ => (ip, O, s2)
    end in
  if (ni + nf =? 0)%nat then None
  else
    e <- take_exponent s3 ;;
    let k := (e - Z.of_nat nf)%Z in
    let sm := if neg then (- m)%Z else m in
    Some (Qred (if (0 <=? k)%Z then inject_Z (sm * 10 ^ k)
                else Qmake sm (Z.to_pos (10 ^ (- k))))).

(** [int(s)] on a decimal integer literal. *)
Definition py_int (s : string) : option Z :=
  let (neg, s1) := take_sign (strip s) in
  match take_digits s1 0 0 with
  | (_, O, _) => None
  | (n, _, EmptyString) => Some (if neg then (- n)%Z else n)
  | _ => None
  end.

(** [int(x)] on a number: truncation toward zero. *)
Definition py_trunc (x : Q) : Z :=
  if Qle_bool 0 x then Qfloor x else Qceiling x.

Definition float_field (line : string) (x : nat) : option Q :=
  f <- field line x ;; py_float f.

Definition int_float_field (line : string) (x : nat) : option Z :=
  f <- field line x ;; v <- py_float f ;; Some (py_trunc v).

Definition int_field (line : string) (x : nat) : option Z :=
  f <- field line x ;; py_int f.

(** ** [read_file] *)

(** The loop state: the dictionary under construction and the two-slot list
    [lap_start_stop]. *)
Record reader : Type := mkReader {
  r_data : dataset;
  lap_start_stop : Q * Q
}.

Definition reader_init : reader :=
  mkReader (mkData [] [] [] [] []) (0, 0).

(** The test [holding_list[0] != 0 and holding_list[1] != 90 and
    holding_list[2] != -80] of the location branch. *)
Definition is_position (t la lo : Q) : bool :=
  negb (Qeq_bool t 0) && negb (Qeq_bool la 90) && negb (Qeq_bool lo (-80)).

(** The body of the location branch once its three fields are parsed. *)
Definition location_record (st : reader) (t la lo : Q) : option reader :=
  let d := r_data st in
  let (l0, l1) := lap_start_stop st in
  if is_position t la lo then
    t' <- _normalize_timestamp t ;;
    let holding_list := mkRow t' (Num la) (Num lo) Blank Blank Blank Blank in
    let l0' := if Qeq_bool l0 0 then t' else l0 in
    let l1' := if negb (Qle_bool t' l1) then t' else l1 in
    Some (mkReader
            (mkData (gps d ++ [holding_list]) (alti_s d) (hr_s d) (cad_s d) (lap d))
            (l0', l1'))
  else
    Some (mkReader
            (mkData (gps d) (alti_s d) (hr_s d) (cad_s d) (lap d ++ [[l0; l1]]))
            (0, 0)).

(** One iteration of [for line in f]. *)
Definition read_line (st : reader) (line : string) : option reader :=
  let d := r_data st in
  if substring 0 6 line =? "tp=lbs" then
    t <- float_field line 6 ;;
    la <- float_field line 3 ;;
    lo <- float_field line 4 ;;
    location_record st t la lo
  else if substring 0 6 line =? "tp=h-r" then
    t <- int_float_field line 2 ;;
    v <- int_field line 3 ;;
    t' <- _normalize_timestamp (inject_Z t) ;;
    let holding_list := mkRow t' Blank Blank Blank Blank (Num (inject_Z v)) Blank in
    Some (mkReader
            (mkData (gps d) (alti_s d) (hr_s d ++ [holding_list]) (cad_s d) (lap d))
            (lap_start_stop st))
  else if substring 0 6 line =? "tp=s-r" then
    t <- int_float_field line 2 ;;
    v <- int_field line 3 ;;
    t' <- _normalize_timestamp (inject_Z t) ;;
    let holding_list := mkRow t' Blank Blank Blank Blank Blank (Num (inject_Z v)) in
    Some (mkReader
            (mkData (gps d) (alti_s d) (hr_s d) (cad_s d ++ [holding_list]) (lap d))
            (lap_start_stop st))
  else if substring 0 7 line =? "tp=alti" then
    t <- int_float_field line 2 ;;
    v <- float_field line 3 ;;
    t' <- _normalize_timestamp (inject_Z t) ;;
    let holding_list := mkRow t' Blank Blank (Num v) Blank Blank Blank in
    Some (mkReader
            (mkData (gps d) (alti_s d ++ [holding_list]) (hr_s d) (cad_s d) (lap d))
            (lap_start_stop st))
  else Some st.

Fixpoint read_lines (st : reader) (f : list string) : option reader :=
  match f with
  | [] => Some st
  | line :: rest => st' <- read_line st line ;; read_lines st' rest
  end.

(** [sorted(l, key=lambda x: x[0])]: the stable sort by time, written as an
    insertion sort that puts an element before the first one that is not
    earlier than it. *)
Fixpoint insert_by_time (x : row) (l : list row) : list row :=
  match l with
  | [] => [x]
  | y :: tl =>
      if Qle_bool (time x) (time y) then x :: l else y :: insert_by_time x tl
  end.

Fixpoint sorted_by_time (l : list row) : list row :=
  match l with
  | [] => []
  | x :: tl => insert_by_time x (sorted_by_time tl)
  end.

(** [read_file] on the lines of the input file; [None] is the [exit()] of
    its handler. *)
Definition read_file (f : list string) : option dataset :=
  st <- read_lines reader_init f ;;
  let d := r_data st in
  let (l0, l1) := lap_start_stop st in
  let laps := if negb (Qeq_bool l0 0) then lap d ++ [[l0; l1]] else lap d in
  Some (mkData (sorted_by_time (gps d)) (alti_s d) (hr_s d) (cad_s d) laps).

(** ** [filter_data] *)

(** [line[5] < 1 or line[5] > 254] and its two siblings; [None] when the
    comparison raises. *)
Definition out_of_range (slot : row -> cell) (lo hi : Q) (line : row)
  : option bool :=
  b <- cell_ltb (slot line) lo ;;
  if b then Some true else cell_gtb (slot line) hi.

(** [for line in l: if <test>: l.remove(line)].  [i] is the index kept by
    the list iterator: it advances at every turn whether or not the list
    shrank, and the loop stops when it reaches the current length.  The
    second component is [false] when the test raised. *)
Fixpoint filter_loop (test : row -> option bool) (fuel i : nat) (l : list row)
  : list row * bool :=
  match fuel with
  | O => (l, true)
  | S fuel' =>
      match nth_error l i with
      | None => (l, true)
      | Some line =>
          match test line with
          | None => (l, false)
          | Some true => filter_loop test fuel' (S i) (remove_first line l)
          | Some false => filter_loop test fuel' (S i) l
          end
      end
  end.

Definition filter_list (test : row -> option bool) (l : list row)
  : list row * bool :=
  filter_loop test (S (List.length l)) 0 l.

(** [filter_data]: the three loops run inside one [try]; [original_data] is
    another name for the same dictionary, so the handler returns the lists
    as the loops left them.  The boolean is [true] for [OKAY] and [false]
    for [FAILED]. *)
Definition filter_data (data : dataset) : dataset * bool :=
  let (h, ok_h) := filter_list (out_of_range hr 1 254) (hr_s data) in
  if negb ok_h then (mkData (gps data) (alti_s data) h (cad_s data) (lap data), false)
  else
    let (c, ok_c) := filter_list (out_of_range cad 0 254) (cad_s data) in
    if negb ok_c then (mkData (gps data) (alti_s data) h c (lap data), false)
    else
      let (a, ok_a) :=
        filter_list (out_of_range alti (-1000) 10000) (alti_s data) in
      (mkData (gps data) a h c (lap data), ok_a).

(** ** [process_gps] *)

(** The functions of Python's [math] module that [_vincenty] calls. *)
Class MathLib : Type := {
  sin : Q -> Q;
  cos : Q -> Q;
  tan : Q -> Q;
  atan : Q -> Q;
  atan2 : Q -> Q -> Q;
  sqrt : Q -> Q;
  radians : Q -> Q
}.

(** [round(x)] to the nearest integer, ties to even. *)
Definition round_half_even (x : Q) : Z :=
  let n := Qfloor x in
  match Qcompare (x - inject_Z n) (1 # 2) with
  | Lt => n
  | Gt => (n + 1)%Z
  | Eq => if Z.even n then n else (n + 1)%Z
  end.

(** [round(s, 6)]. *)
Definition round6 (s : Q) : Q :=
  inject_Z (round_half_even (s * 1000000)) / 1000000.

Module Vincenty.

Section WithMath.
Context {M : MathLib}.

(** WGS 84 *)
Definition a : Q := 6378137.
Definition f : Q := 1 / (298257223563 # 1000000000).
Definition b : Q := 6356752314245 # 1000000.
Definition MAX_ITERATIONS : nat := 200.
Definition CONVERGENCE_THRESHOLD : Q := 1 # 1000000000000.

(** The values of the last turn of the loop that the code after it reads. *)
Record last_turn : Type := mkTurn {
  sinSigma : Q;
  cosSigma : Q;
  sigma : Q;
  cosSqAlpha : Q;
  cos2SigmaM : Q
}.

Inductive loop_exit : Type :=
| ReturnZero : loop_exit           (* [return 0.0] inside the loop *)
| Break : last_turn -> loop_exit   (* [break] *)
| Exhausted : loop_exit.           (* the [else] of the [for] *)

(** [for iteration in range(MAX_ITERATIONS)] with [n] turns left. *)
Fixpoint iterate (n : nat) (sinU1 cosU1 sinU2 cosU2 L Lambda : Q) : loop_exit :=
  match n with
  | O => Exhausted
  | S n' =>
      let sinLambda := sin Lambda in
      let cosLambda := cos Lambda in
      let sinSigma := sqrt ((cosU2 * sinLambda) ^ 2 +
                            (cosU1 * sinU2 - sinU1 * cosU2 * cosLambda) ^ 2) in
      if Qeq_bool sinSigma 0 then ReturnZero
      else
        let cosSigma := sinU1 * sinU2 + cosU1 * cosU2 * cosLambda in
        let sigma := atan2 sinSigma cosSigma in
        let sinAlpha := cosU1 * cosU2 * sinLambda / sinSigma in
        let cosSqAlpha := 1 - sinAlpha ^ 2 in
        let cos2SigmaM :=
          if Qeq_bool cosSqAlpha 0 then 0   (* ZeroDivisionError *)
          else cosSigma - 2 * sinU1 * sinU2 / cosSqAlpha in
        let C := f / 16 * cosSqAlpha * (4 + f * (4 - 3 * cosSqAlpha)) in
        let LambdaPrev := Lambda in
        let Lambda :=
          L + (1 - C) * f * sinAlpha *
              (sigma + C * sinSigma *
                       (cos2SigmaM + C * cosSigma *
                                     (-1 + 2 * cos2SigmaM ^ 2))) in
        if negb (Qle_bool CONVERGENCE_THRESHOLD (Qabs (Lambda - LambdaPrev)))
        then Break (mkTurn sinSigma cosSigma sigma cosSqAlpha cos2SigmaM)
        else iterate n' sinU1 cosU1 sinU2 cosU2 L Lambda
  end.

(** [_vincenty(point1, point2)]; [None] is the Python value [None] returned
    when the iteration does not converge. *)
Definition _vincenty (point1 point2 : Q * Q) : option Q :=
  if Qeq_bool (fst point1) (fst point2) && Qeq_bool (snd point1) (snd point2)
  then Some 0
  else
    let U1 := atan ((1 - f) * tan (radians (fst point1))) in
    let U2 := atan ((1 - f) * tan (radians (fst point2))) in
    let L := radians (snd point2 - snd point1) in
    let Lambda := L in
    let sinU1 := sin U1 in
    let cosU1 := cos U1 in
    let sinU2 := sin U2 in
    let cosU2 := cos U2 in
    match iterate MAX_ITERATIONS sinU1 cosU1 sinU2 cosU2 L Lambda with
    | ReturnZero => Some 0
    | Exhausted => None
    | Break t =>
        let uSq := cosSqAlpha t * (a ^ 2 - b ^ 2) / (b ^ 2) in
        let A := 1 + uSq / 16384 *
                     (4096 + uSq * (-768 + uSq * (320 - 175 * uSq))) in
        let B := uSq / 1024 * (256 + uSq * (-128 + uSq * (74 - 47 * uSq))) in
        let deltaSigma :=
          B * sinSigma t *
          (cos2SigmaM t +
           B / 4 * (cosSigma t * (-1 + 2 * cos2SigmaM t ^ 2) -
                    B / 6 * cos2SigmaM t * (-3 + 4 * sinSigma t ^ 2) *
                    (-3 + 4 * cos2SigmaM t ^ 2))) in
        let s := b * A * (sigma t - deltaSigma) in
        Some (round6 s)
    end.

End WithMath.

End Vincenty.

(** [float(c)] on a cell: [float('')] raises [ValueError]. *)
Definition float_cell (c : cell) : option Q :=
  match c with
  | Blank => None
  | Num q => Some q
  end.

Section ProcessGps.
Context {M : MathLib}.

(** The value assigned to [entry[4]] for [n > 0]: the distance to the
    previous point plus the previous point's running distance.  [None] when
    a step raises (a blank coordinate, or adding to the [None] of a failed
    iteration). *)
Definition running_distance (entry prev : row) : option Q :=
  la <- float_cell (lat entry) ;;
  lo <- float_cell (long entry) ;;
  pla <- float_cell (lat prev) ;;
  plo <- float_cell (long prev) ;;
  v <- Vincenty._vincenty (la, lo) (pla, plo) ;;
  pd <- float_cell (dist prev) ;;
  Some (v + pd).

(** The turns [n > 0] of the loop; [prev] is [data['gps'][n-1]] as the
    previous turn left it. *)
Fixpoint gps_loop (prev : row) (rest : list row) : option (list row) :=
  match rest with
  | [] => Some []
  | entry :: tl =>
      d <- running_distance entry prev ;;
      let entry' := setx 4 (Num d) entry in
      tl' <- gps_loop entry' tl ;;
      Some (entry' :: tl')
  end.

Definition process_gps_list (l : list row) : option (list row) :=
  match l with
  | [] => Some []
  | entry :: tl =>
      let entry' := setx 4 (Num 0) entry in
      tl' <- gps_loop entry' tl ;;
      Some (entry' :: tl')
  end.

(** [process_gps]; [None] is the [exit()] of its handler. *)
Definition process_gps (data : dataset) : option dataset :=
  g <- process_gps_list (gps data) ;;
  Some (mkData g (alti_s data) (hr_s data) (cad_s data) (lap data)).

End ProcessGps.

(** ** [calculate_lap_stats] *)

(** The inner loop over [data['gps']] for the lap [[start, stop, ...]].
    [start_distance] is a local of the whole function: [None] while it is
    unbound, and it keeps its value from one lap to the next.  The result is
    the distance appended to the lap, if any, and [start_distance]
    afterwards; the outer [None] is a raised exception. *)
Fixpoint scan_gps (g : list row) (start stop : Q) (start_distance : option cell)
  : option (option Q * option cell) :=
  match g with
  | [] => Some (None, start_distance)
  | gps_data :: tl =>
      if Qeq_bool (time gps_data) start then
        scan_gps tl start stop (Some (dist gps_data))
      else if Qeq_bool (time gps_data) stop then
        sd <- start_distance ;;
        d <- cell_sub (dist gps_data) sd ;;
        Some (Some d, start_distance)
      else scan_gps tl start stop start_distance
  end.

(** One turn of the outer loop: the lap with its statistics appended. *)
Definition lap_turn (g : list row) (lap_data : list Q)
  (start_distance : option cell) : option (list Q * option cell) :=
  start <- nth_error lap_data 0 ;;
  stop <- nth_error lap_data 1 ;;
  let lap_data := lap_data ++ [stop - start] in
  r <- scan_gps g start stop start_distance ;;
  match fst r with
  | Some d => Some (lap_data ++ [d], snd r)
  | None => Some (lap_data, snd r)
  end.

Fixpoint lap_loop (g : list row) (laps : list (list Q))
  (start_distance : option cell) : option (list (list Q)) :=
  match laps with
  | [] => Some []
  | lap_data :: rest =>
      r <- lap_turn g lap_data start_distance ;;
      rest' <- lap_loop g rest (snd r) ;;
      Some (fst r :: rest')
  end.

(** [calculate_lap_stats]; [None] is the [exit()] of its handler. *)
Definition calculate_lap_stats (data : dataset) : option (list (list Q)) :=
  lap_loop (gps data) (lap data) None.

(** ** [merge_data] *)

(** [for x in range(1,7): if entry[x]: data[n-1][x] = entry[x]]. *)
Definition copy_back (entry prev : row) : row :=
  fold_left
    (fun p x => if truthy (getx x entry) then setx x (getx x entry) p else p)
    (seq 1 6) prev.

(** The body of the loop at index [n] with [entry = data[n]]. *)
Definition merge_turn (n : nat) (entry : row) (data : list row) : list row :=
  match n with
  | O => data
  | S m =>
      match nth_error data m with
      | None => data
      | Some prev =>
          if Qeq_bool (time entry) (time prev) then
            remove_first entry (list_set m (copy_back entry prev) data)
          else data
      end
  end.

(** [for n, entry in enumerate(data)]: the counter of [enumerate] and the
    index of the list iterator advance together, and the list may have
    shrunk under them. *)
Fixpoint merge_loop (fuel n : nat) (data : list row) : list row :=
  match fuel with
  | O => data
  | S fuel' =>
      match nth_error data n with
      | None => data
      | Some entry => merge_loop fuel' (S n) (merge_turn n entry data)
      end
  end.

Definition merge_data (data : dataset) : list row :=
  let l := sorted_by_time (gps data ++ alti_s data ++ hr_s data ++ cad_s data) in
  merge_loop (S (List.length l)) 0 l.

(** ** [file_details] *)

(** [file_details] returns the merged records and the lap statistics; the
    strings it prints and formats are not part of the model.  [None] is the
    [exit()] of its handler. *)
Definition file_details (data : dataset) : option (list row * list (list Q)) :=
  distance <- match gps data with
              | [] => Some 0
              | _ => float_cell (dist (last (gps data) (mkRow 0 Blank Blank Blank Blank Blank Blank)))
              end ;;
  lap_stats <- calculate_lap_stats data ;;
  let merged := merge_data data in
  first <- nth_error merged 0 ;;
  Some (merged, lap_stats).

(** ** [generate_xml] *)

(** The user options [{'filter', 'validate', 'sport'}]. *)
Record options : Type := mkOptions {
  opt_filter : bool;
  opt_validate : bool;
  opt_sport : string
}.

(** Text put into the document.  Formatting of numbers and dates is kept
    symbolic: the model records which value is formatted and how. *)
Inductive text : Type :=
| Str : string -> text    (* a literal *)
| IsoTime : Q -> text     (* dt.utcfromtimestamp(t).isoformat('T','seconds')+'.000Z' *)
| IntStr : Z -> text      (* str(int(x)) *)
| CellStr : cell -> text. (* str(x), empty exactly for the blank cell *)

(** An [ET.Element]: elements live in a store and refer to their children
    by index, as the Python objects refer to each other. *)
Record element : Type := mkElement {
  tag : string;
  attrib : list (string * text);
  etext : option text;
  children : list nat
}.

Definition tree : Type := list element.

(** Statements that build the document: each one runs on the store and
    either yields a value or raises, and what was built before the
    exception stays in the store. *)
Definition build (A : Type) : Type := tree -> option A * tree.

Definition ret {A : Type} (x : A) : build A := fun t => (Some x, t).

Definition bind {A B : Type} (m : build A) (k : A -> build B) : build B :=
  fun t =>
    match m t with
    | (Some x, t') => k x t'
    | (None, t') => (None, t')
    end.

Notation "x <~ e ;; k" := (bind e (fun x => k))
  (at level 61, e at next level, right associativity).
Notation "e ;;; k" := (bind e (fun _ => k))
  (at level 61, right associativity).

(** An expression that may raise ([IndexError] on a short list). *)
Definition lift {A : Type} (o : option A) : build A := fun t => (o, t).

Definition update (i : nat) (g : element -> element) (t : tree) : tree :=
  match nth_error t i with
  | Some e => list_set i (g e) t
  | None => t
  end.

(** [ET.Element(tag)] *)
Definition Element (tg : string) : build nat :=
  fun t => (Some (List.length t), t ++ [mkElement tg [] None []]).

(** [ET.SubElement(parent, tag)] *)
Definition SubElement (parent : nat) (tg : string) : build nat :=
  fun t =>
    let i := List.length t in
    (Some i,
     update parent
       (fun e => mkElement (tag e) (attrib e) (etext e) (children e ++ [i]))
       (t ++ [mkElement tg [] None []])).

(** [elem.set(key, value)] *)
Definition set (elem : nat) (key : string) (value : text) : build unit :=
  fun t =>
    (Some tt,
     update elem
       (fun e => mkElement (tag e) (attrib e ++ [(key, value)]) (etext e) (children e))
       t).

(** [elem.text = value] *)
Definition set_text (elem : nat) (value : text) : build unit :=
  fun t =>
    (Some tt,
     update elem (fun e => mkElement (tag e) (attrib e) (Some value) (children e)) t).

(** [SubElement] followed by the assignment of its text. *)
Definition leaf (parent : nat) (tg : string) (value : text) : build unit :=
  e <~ SubElement parent tg ;; set_text e value.

Fixpoint for_each {A : Type} (l : list A) (body : A -> build unit) : build unit :=
  match l with
  | [] => ret tt
  | x :: tl => body x ;;; for_each tl body
  end.

Definition when (c : bool) (m : build unit) : build unit :=
  if c then m else ret tt.

(** [if formattedline_k:] on [str(line[k])]. *)
Definition present (c : cell) : bool :=
  match c with
  | Blank => false
  | Num _ => true
  end.

(** One turn of [for line in data] inside a lap. *)
Definition trackpoint (Track : nat) (stats : list Q) (opts : options)
  (line : row) : build unit :=
  s0 <~ lift (nth_error stats 0) ;;
  if negb (Qle_bool s0 (time line)) then ret tt
  else
    s1 <~ lift (nth_error stats 1) ;;
    if negb (Qle_bool (time line) s1) then ret tt
    else
      Trackpoint <~ SubElement Track "Trackpoint" ;;
      leaf Trackpoint "Time" (IsoTime (time line)) ;;;
      when (present (lat line))
        (Position <~ SubElement Trackpoint "Position" ;;
         leaf Position "LatitudeDegrees" (CellStr (lat line)) ;;;
         leaf Position "LongitudeDegrees" (CellStr (long line))) ;;;
      when (present (alti line))
        (leaf Trackpoint "AltitudeMeters" (CellStr (alti line))) ;;;
      when (present (lat line))
        (leaf Trackpoint "DistanceMeters" (CellStr (dist line))) ;;;
      when (present (hr line))
        (HeartRateBpm <~ SubElement Trackpoint "HeartRateBpm" ;;
         set HeartRateBpm "xsi:type" (Str "HeartRateInBeatsPerMinute_t") ;;;
         leaf HeartRateBpm "Value" (CellStr (hr line))) ;;;
      when (present (cad line))
        (if opt_sport opts =? "Biking" then
           leaf Trackpoint "Cadence" (CellStr (cad line))
         else if opt_sport opts =? "Running" then
           Extensions <~ SubElement Trackpoint "Extensions" ;;
           TPX <~ SubElement Extensions "TPX" ;;
           set TPX "xmlns"
             (Str "http://www.garmin.com/xmlschemas/ActivityExtension/v2") ;;;
           leaf TPX "RunCadence" (CellStr (cad line))
         else ret tt).

(** One turn of [for n, stats in enumerate(lap_stats)]. *)
Definition lap_element (Activity : nat) (data : list row) (opts : options)
  (stats : list Q) : build unit :=
  Lap <~ SubElement Activity "Lap" ;;
  s0 <~ lift (nth_error stats 0) ;;
  set Lap "StartTime" (IsoTime s0) ;;;
  TotalTimeSeconds <~ SubElement Lap "TotalTimeSeconds" ;;
  s2 <~ lift (nth_error stats 2) ;;
  set_text TotalTimeSeconds (IntStr (py_trunc s2)) ;;;
  DistanceMeters <~ SubElement Lap "DistanceMeters" ;;
  s3 <~ lift (nth_error stats 3) ;;
  set_text DistanceMeters (IntStr (py_trunc s3)) ;;;
  leaf Lap "Calories" (Str "0") ;;;
  leaf Lap "Intensity" (Str "Active") ;;;
  leaf Lap "TriggerMethod" (Str "Manual") ;;;
  Track <~ SubElement Lap "Track" ;;
  for_each data (trackpoint Track stats opts).

(** The version block shared by [Creator] and [Author]. *)
Definition version_block (Version : nat) (major minor bmajor bminor : string)
  : build unit :=
  leaf Version "VersionMajor" (Str major) ;;;
  leaf Version "VersionMinor" (Str minor) ;;;
  leaf Version "BuildMajor" (Str bmajor) ;;;
  leaf Version "BuildMinor" (Str bminor).

(** The body of the [try] of [generate_xml]. *)
Definition generate_xml_body (data : list row) (lap_stats : list (list Q))
  (opts : options) : build unit :=
  TrainingCenterDatabase <~ Element "TrainingCenterDatabase" ;;
  set TrainingCenterDatabase "xsi:schemaLocation"
    (Str "http://www.garmin.com/xmlschemas/TrainingCenterDatabase/v2 http://www.garmin.com/xmlschemas/TrainingCenterDatabasev2.xsd") ;;;
  set TrainingCenterDatabase "xmlns"
    (Str "http://www.garmin.com/xmlschemas/TrainingCenterDatabase/v2") ;;;
  set TrainingCenterDatabase "xmlns:xsd" (Str "http://www.w3.org/2001/XMLSchema") ;;;
  set TrainingCenterDatabase "xmlns:xsi"
    (Str "http://www.w3.org/2001/XMLSchema-instance") ;;;
  set TrainingCenterDatabase "xmlns:ns3"
    (Str "http://www.garmin.com/xmlschemas/ActivityExtension/v2") ;;;
  Activities <~ SubElement TrainingCenterDatabase "Activities" ;;
  Activity <~ SubElement Activities "Activity" ;;
  set Activity "Sport" (Str (opt_sport opts)) ;;;
  Id <~ SubElement Activity "Id" ;;
  first_lap <~ lift (nth_error lap_stats 0) ;;
  start <~ lift (nth_error first_lap 0) ;;
  set_text Id (IsoTime start) ;;;
  for_each lap_stats (lap_element Activity data opts) ;;;
  Creator <~ SubElement Activity "Creator" ;;
  set Creator "xsi:type" (Str "Device_t") ;;;
  leaf Creator "Name" (Str "Huawei Fitness Tracking Device") ;;;
  leaf Creator "UnitId" (Str "0000000000") ;;;
  leaf Creator "ProductID" (Str "0000") ;;;
  Version <~ SubElement Creator "Version" ;;
  version_block Version "0" "0" "0" "0" ;;;
  Author <~ SubElement TrainingCenterDatabase "Author" ;;
  set Author "xsi:type" (Str "Application_t") ;;;
  leaf Author "Name" (Str "Huawei_TCX_Converter") ;;;
  Build <~ SubElement Author "Build" ;;
  Version <~ SubElement Build "Version" ;;
  version_block Version "1" "0" "1" "0" ;;;
  leaf Author "LangID" (Str "en") ;;;
  leaf Author "PartNumber" (Str "000-00000-00").

(** [generate_xml]: the handler prints [FAILED] and falls through to
    [return TrainingCenterDatabase], so the document is returned as far as it
    was built.  The boolean is [true] for [OKAY] and [false] for [FAILED]. *)
Definition generate_xml (data : list row) (lap_stats : list (list Q))
  (opts : options) : tree * bool :=
  match generate_xml_body data lap_stats opts [] with
  | (Some _, t) => (t, true)
  | (None, t) => (t, false)
  end.

(** ** [save_xml] and [main] *)

(** The files written, newest first: a file is represented by the document
    it is serialised from ([indent] and the byte encoding are not
    modelled). *)
Definition filesystem : Type := list (string * tree).

(** [save_xml] returns the new file name. *)
Definition save_xml (TrainingCenterDatabase : tree) (input_file : string)
  (fs : filesystem) : string * filesystem :=
  let new_filename := (input_file ++ ".tcx")%string in
  (new_filename, (new_filename, TrainingCenterDatabase) :: fs).

(** How a run ends: [Exited] is the [exit()] of a stage, [Finished] the end
    of [main]; both carry the files on disk at that point. *)
Inductive outcome : Type :=
| Exited : filesystem -> outcome
| Finished : filesystem -> outcome.

(** The stages of [main] that come before [file_details]. *)
Definition prepare {M : MathLib} (opts : options) (f : list string)
  : option dataset :=
  data <- read_file f ;;
  process_gps (if opt_filter opts then fst (filter_data data) else data).

(** [main] on the parsed command line ([input_file], [opts]), the lines [f]
    of the input file and the files [fs] on disk.  [validate_xml] only
    prints and is left out. *)
Definition main {M : MathLib} (input_file : string) (opts : options)
  (f : list string) (fs : filesystem) : outcome :=
  match prepare opts f with
  | None => Exited fs
  | Some data =>
      match file_details data with
      | None => Exited fs
      | Some (data, lap_stats) =>
          let TrainingCenterDatabase := fst (generate_xml data lap_stats opts) in
          Finished (snd (save_xml TrainingCenterDatabase input_file fs))
      end
  end.

(** A heart-rate, cadence or altitude line whose time field reads as the
    number zero. *)
Definition zero_time_sensor_line (line : string) : Prop :=
  (substring 0 6 line = "tp=h-r" \/ substring 0 6 line = "tp=s-r" \/
   substring 0 7 line = "tp=alti") /\
  exists t, float_field line 2 = Some t /\ t == 0.

(** The running distance of a record, once [process_gps] has filled it. *)
Definition cumulative (r : row) : Q :=
  match dist r with
  | Num d => d
  | Blank => 0
  end.




(** The records of [l] are in ascending order of time. *)
Definition ascending (l : list row) : Prop :=
  StronglySorted Qle (map time l).

(** A stand-in for the [math] module on which [_vincenty] can be run: every
    function is constant, so two distinct points are always at the same
    distance from each other. *)
Definition sample_math : MathLib :=
  {| sin := fun _ => 0; cos := fun _ => 1; tan := fun _ => 0;
     atan := fun _ => 0; atan2 := fun _ _ => 1; sqrt := fun _ => 1;
     radians := fun _ => 0 |}.

(** ** [parse_arguments] *)

(** One turn of [for argument in sys.argv[1:]] on the pair
    ([input_file], [options]).  [None] is the end of the program: the
    [exit()] after an error message, or the [IndexError] that
    [argument[0]] raises on an empty argument, which nothing catches. *)
Definition parse_argument (st : string * options) (argument : string)
  : option (string * options) :=
  let (input_file, opts) := st in
  if argument =? "-f" then
    Some (input_file, mkOptions false (opt_validate opts) (opt_sport opts))
  else if argument =? "-v" then
    Some (input_file, mkOptions (opt_filter opts) true (opt_sport opts))
  else if argument =? "-b" then
    Some (input_file, mkOptions (opt_filter opts) (opt_validate opts) "Biking")
  else if argument =? "-s" then
    Some (input_file, mkOptions (opt_filter opts) (opt_validate opts) "Swimming")
  else
    match argument with
    | EmptyString => None
    | String c _ =>
        if Ascii.eqb c "-" then None
        else if substring 0 2 argument =? ".\" then
          if input_file =? "" then
            Some (substring 2 (String.length argument) argument, opts)
          else None
        else
          if input_file =? "" then Some (argument, opts) else None
    end.

Fixpoint parse_loop (st : string * options) (argv : list string)
  : option (string * options) :=
  match argv with
  | [] => Some st
  | argument :: rest => st' <- parse_argument st argument ;; parse_loop st' rest
  end.

(** [parse_arguments] on [sys.argv[1:]]. *)
Definition parse_arguments (argv : list string) : option (string * options) :=
  st <- parse_loop ("", mkOptions true false "Running") argv ;;
  if fst st =? "" then None else Some st.

(** [main] from the command line: [disk] gives the lines of the files that
    can be opened for reading. *)
Definition main_argv {M : MathLib} (argv : list string)
  (disk : string -> option (list string)) (fs : filesystem) : outcome :=
  match parse_arguments argv with
  | None => Exited fs
  | Some (input_file, opts) =>
      match disk input_file with
      | None => Exited fs
      | Some f => main input_file opts f fs
      end
  end.

(** ** Predicates used in the statements *)

(** The line starts with one of the four tags [read_file] looks for. *)
Definition recognised (line : string) : bool :=
  (substring 0 6 line =? "tp=lbs") || (substring 0 6 line =? "tp=h-r")
  || (substring 0 6 line =? "tp=s-r") || (substring 0 7 line =? "tp=alti").

(** [t] is the time of one of the records of [l]. *)
Definition time_of (l : list row) (t : Q) : Prop := In t (map time l).

(** A lap [[start, stop]] as [read_file] can leave it: still zeroed, or
    spanning two position records of [g]. *)
Definition lap_ok (g : list row) (start stop : Q) : Prop :=
  (start = 0 /\ stop = 0) \/
  (0 < start /\ start <= stop /\ time_of g start /\ time_of g stop).

(** A stored position: built by the location branch, at a positive time,
    and off the two sentinel coordinates. *)
Definition stored_position (r : row) : Prop :=
  exists la lo,
    r = mkRow (time r) (Num la) (Num lo) Blank Blank Blank Blank /\
    0 < time r /\ ~ la == 90 /\ ~ lo == -80.

(** A record of a sensor stream: a positive time and a number in [slot],
    nothing in the other slots. *)
Definition sensor_record (slot : nat) (r : row) : Prop :=
  0 < time r /\
  exists v, r = setx slot (Num v) (mkRow (time r) Blank Blank Blank Blank Blank Blank).

(** What holds of the loop state of [read_file] after every line. *)
Definition reader_ok (st : reader) : Prop :=
  Forall stored_position (gps (r_data st)) /\
  Forall (sensor_record 3) (alti_s (r_data st)) /\
  Forall (sensor_record 5) (hr_s (r_data st)) /\
  Forall (sensor_record 6) (cad_s (r_data st)) /\
  Forall (fun l => exists s e, l = [s; e] /\ lap_ok (gps (r_data st)) s e)
    (lap (r_data st)) /\
  lap_ok (gps (r_data st)) (fst (lap_start_stop st)) (snd (lap_start_stop st)).

(** No two records of [l] are equal as Python lists. *)
Fixpoint distinct_rows (l : list row) : Prop :=
  match l with
  | [] => True
  | x :: tl => (forall y, In y tl -> row_eqb y x = false) /\ distinct_rows tl
  end.

(** No record of [l] that fails [test] is followed at once by another one
    that fails it; [test] raises on no record of [l]. *)
Fixpoint isolated_failures (test : row -> option bool) (l : list row) : Prop :=
  match l with
  | [] => True
  | x :: tl =>
      match test x with
      | None => False
      | Some true =>
          match tl with
          | [] => True
          | y :: _ => test y = Some false
          end /\ isolated_failures test tl
      | Some false => isolated_failures test tl
      end
  end.

(** The records of [l] that pass [test]. *)
Definition passing (test : row -> option bool) (l : list row) : list row :=
  filter (fun r => match test r with Some true => false | _ => true end) l.

(** The value of [_vincenty] from [cur] back to [prev], as [process_gps]
    calls it; [None] when a coordinate is blank or the iteration fails. *)
Definition leg {M : MathLib} (prev cur : row) : option Q :=
  la <- float_cell (lat cur) ;;
  lo <- float_cell (long cur) ;;
  pla <- float_cell (lat prev) ;;
  plo <- float_cell (long prev) ;;
  Vincenty._vincenty (la, lo) (pla, plo).

(** The distance slot of the record holds a number. *)
Definition has_distance (r : row) : Prop := exists q, dist r = Num q.

(** What [calculate_lap_stats] makes of the lap [l] of [read_file] over the
    positions [g]: the duration is appended, and, when the lap has two
    different bounds, the difference of the running distances of a record
    at the stop time and a record at the start time. *)
Definition lap_stat_of (g : list row) (l st : list Q) : Prop :=
  exists start stop,
    l = [start; stop] /\
    ((start == stop /\ st = [start; stop; stop - start]) \/
     (start < stop /\
      exists rs re,
        In rs g /\ In re g /\ time rs == start /\ time re == stop /\
        st = [start; stop; stop - start; cumulative re - cumulative rs])).

(** Some record of [l] carries the timestamp [t]. *)
Definition has_time (l : list row) (t : Q) : Prop :=
  exists r, In r l /\ time r == t.

(** The four streams in the order [merge_data] concatenates them. *)
Definition all_records (data : dataset) : list row :=
  gps data ++ alti_s data ++ hr_s data ++ cad_s data.

(** The statement yields a value from every store. *)
Definition always_ok {A : Type} (m : build A) : Prop :=
  forall t, exists x t', m t = (Some x, t').

(** The statement raises from every store. *)
Definition always_raises {A : Type} (m : build A) : Prop :=
  forall t, exists t', m t = (None, t').

(** A location line that takes the pause branch of [read_file]. *)
Definition pause_line (line : string) : bool :=
  (substring 0 6 line =? "tp=lbs") &&
  match float_field line 6, float_field line 3, float_field line 4 with
  | Some t, Some la, Some lo => negb (is_position t la lo)
  | _, _, _ => false
  end.


(** The number of elements of the document with the tag [T]. *)
Definition count_tag (T : string) (t : tree) : nat :=
  List.length (filter (fun e => tag e =? T) t).

(** The statement yields a value from every store and adds [c] elements
    with the tag [T] to it. *)
Definition adds {A : Type} (T : string) (m : build A) (c : nat) : Prop :=
  forall t, exists x t',
    m t = (Some x, t') /\ count_tag T t' = (count_tag T t + c)%nat.

(** The test of [generate_xml] for a record of a lap: its time is neither
    before [stats[0]] nor after [stats[1]]. *)
Definition within (stats : list Q) (line : row) : bool :=
  Qle_bool (nth 0 stats 0) (time line) && Qle_bool (time line) (nth 1 stats 0).

(** ** Sample inputs *)

(** A short file: two positions with a heart rate and a cadence, a pause,
    two more positions with an altitude. *)
Definition sample_file : list string :=
  ["tp=lbs;k=0;lat=40.44;lon=-79.5;alt=0.0;t=1.543646826E9;";
   "tp=h-r;k=1543646826;v=75;";
   "tp=lbs;k=1;lat=40.45;lon=-79.5;alt=0.0;t=1.543646836E9;";
   "tp=s-r;k=1543646830;v=80;";
   "tp=lbs;k=2;lat=90.0;lon=-80.0;alt=0.0;t=0.0;";
   "tp=lbs;k=3;lat=40.46;lon=-79.5;alt=0.0;t=1.543646846E9;";
   "tp=alti;k=1543646850;v=312.5;";
   "tp=lbs;k=4;lat=40.47;lon=-79.5;alt=0.0;t=1.543646856E9;"].

Definition sample_options : options := mkOptions true false "Running".

Definition no_data : dataset := mkData [] [] [] [] [].

(** What [read_file] returns for [sample_file]. *)
Definition sample_data : dataset :=
  Eval vm_compute in
    match read_file sample_file with Some d => d | None => no_data end.

(** What [prepare] returns for it over [sample_math]. *)
Definition sample_prepared : dataset :=
  Eval vm_compute in
    match @prepare sample_math sample_options sample_file with
    | Some d => d
    | None => no_data
    end.

(** Three heart rates, the middle one out of range. *)
Definition noisy_data : dataset :=
  mkData [] []
    [mkRow 1543646826 Blank Blank Blank Blank (Num 75) Blank;
     mkRow 1543646827 Blank Blank Blank Blank (Num 255) Blank;
     mkRow 1543646828 Blank Blank Blank Blank (Num 80) Blank]
    [] [].


(** * Properties *)

(** ** The list iterator never outlives its fuel *)

Lemma remove_first_length (x : row) (l : list row) :
  (List.length (remove_first x l) <= List.length l)%nat.
Proof.
  induction l as [|y tl IH]; simpl; [lia|].
  destruct (row_eqb y x); simpl; lia.
Qed.

Lemma list_set_length {A : Type} (i : nat) (v : A) (l : list A) :
  List.length (list_set i v l) = List.length l.
Proof.
  revert i; induction l as [|y tl IH]; intros [|j]; simpl; auto.
Qed.

(** The loops of [filter_data] stop because the iterator runs off the
    list, not because the fuel given by [filter_list] is used up. *)
Lemma filter_loop_fuel (test : row -> option bool) :
  forall fuel1 fuel2 i l,
    (List.length l < fuel1 + i)%nat -> (List.length l < fuel2 + i)%nat ->
    filter_loop test fuel1 i l = filter_loop test fuel2 i l.
Proof.
  induction fuel1 as [|f1 IH]; intros fuel2 i l H1 H2.
  - destruct fuel2 as [|f2]; simpl; [reflexivity|].
    assert (E : nth_error l i = None) by (apply nth_error_None; lia).
    now rewrite E.
  - destruct fuel2 as [|f2]; simpl.
    + assert (E : nth_error l i = None) by (apply nth_error_None; lia).
      now rewrite E.
    + destruct (nth_error l i) as [line|]; [|reflexivity].
      destruct (test line) as [[|]|]; [|apply IH; lia|reflexivity].
      pose proof (remove_first_length line l). apply IH; lia.
Qed.

Lemma merge_turn_length (n : nat) (entry : row) (data : list row) :
  (List.length (merge_turn n entry data) <= List.length data)%nat.
Proof.
  destruct n as [|m]; simpl; [lia|].
  destruct (nth_error data m) as [prev|]; [|lia].
  destruct (Qeq_bool (time entry) (time prev)); [|lia].
  etransitivity; [apply remove_first_length|].
  rewrite list_set_length. lia.
Qed.

(** The same for the loop of [merge_data]. *)
Lemma merge_loop_fuel :
  forall fuel1 fuel2 n data,
    (List.length data < fuel1 + n)%nat -> (List.length data < fuel2 + n)%nat ->
    merge_loop fuel1 n data = merge_loop fuel2 n data.
Proof.
  induction fuel1 as [|f1 IH]; intros fuel2 n data H1 H2.
  - destruct fuel2 as [|f2]; simpl; [reflexivity|].
    assert (E : nth_error data n = None) by (apply nth_error_None; lia).
    now rewrite E.
  - destruct fuel2 as [|f2]; simpl.
    + assert (E : nth_error data n = None) by (apply nth_error_None; lia).
      now rewrite E.
    + destruct (nth_error data n) as [entry|]; [|reflexivity].
      pose proof (merge_turn_length n entry data). apply IH; lia.
Qed.

(** ** The location branch of [read_file] *)

Lemma Qeq_bool_false_iff (x y : Q) : Qeq_bool x y = false <-> ~ x == y.
Proof.
  split.
  - intros H E. apply Qeq_bool_iff in E. congruence.
  - intros H. destruct (Qeq_bool x y) eqn:E; [|reflexivity].
    apply Qeq_bool_iff in E. contradiction.
Qed.

(** The test of the location branch sends a line to the pause branch as
    soon as one of the three values matches. *)
Lemma is_position_false_iff (t la lo : Q) :
  is_position t la lo = false <-> t == 0 \/ la == 90 \/ lo == -80.
Proof.
  unfold is_position.
  rewrite !andb_false_iff, !negb_false_iff, !Qeq_bool_iff. tauto.
Qed.

Lemma location_record_pause (st : reader) (t la lo : Q) :
  t == 0 \/ la == 90 \/ lo == -80 ->
  location_record st t la lo =
    Some (mkReader
            (mkData (gps (r_data st)) (alti_s (r_data st)) (hr_s (r_data st))
               (cad_s (r_data st))
               (lap (r_data st) ++
                [[fst (lap_start_stop st); snd (lap_start_stop st)]]))
            (0, 0)).
Proof.
  intros H. apply is_position_false_iff in H.
  unfold location_record. destruct (lap_start_stop st) as [l0 l1].
  now rewrite H.
Qed.

(** C1.  A location line at longitude -80.0 with a valid time and a latitude
    other than 90 is not stored as a position: the line after the first one
    below closes the lap that the first one opened, and [data['gps']] keeps
    one record only.  The test of the branch joins the three inequalities
    with [and], so one matching value is enough for the pause branch, where
    the comment above it describes a pause by all three values. *)
Theorem location_line_at_longitude_minus_80_closes_lap :
  float_field "tp=lbs;k=1;lat=40.44;lon=-80.0;alt=0.0;t=1.543646836E9;" 6
    = Some 1543646836 /\
  float_field "tp=lbs;k=1;lat=40.44;lon=-80.0;alt=0.0;t=1.543646836E9;" 3
    = Some (1011 # 25) /\
  float_field "tp=lbs;k=1;lat=40.44;lon=-80.0;alt=0.0;t=1.543646836E9;" 4
    = Some (-80) /\
  read_file
    ["tp=lbs;k=0;lat=40.44;lon=-79.5;alt=0.0;t=1.543646826E9;";
     "tp=lbs;k=1;lat=40.44;lon=-80.0;alt=0.0;t=1.543646836E9;"]
  = Some (mkData
            [mkRow 1543646826 (Num (1011 # 25)) (Num (-159 # 2))
               Blank Blank Blank Blank]
            [] [] []
            [[1543646826; 1543646826]]).
Proof. repeat split; vm_compute; reflexivity. Qed.

(** ** Timestamp normalisation from one upward *)

(** In exact arithmetic a timestamp of at least one is scaled into the
    ten-digit range, and a value in that range is returned unchanged. *)





Lemma ten_pow_pos (k : Z) : 0 < (10 : Q) ^ k.
Proof. apply Qpower_0_lt. reflexivity. Qed.


Lemma divisor_is_power (oom : Z) :
  (if (oom >? 9)%Z then Qpower 10 (oom - 9) else Qpower (1 # 10) (9 - oom))
  == 10 ^ (oom - 9).
Proof.
  destruct (oom >? 9)%Z; [reflexivity|].
  rewrite Qinv_power_n.
  replace (oom - 9)%Z with (- (9 - oom))%Z by lia.
  rewrite Qpower_opp. reflexivity.
Qed.




(** ** Timestamp normalisation below one *)

(** C5.  For the timestamp 0.5 the order of magnitude is [int(-0.30...)],
    which is 0 and not -1 because [int] truncates toward zero; the result
    500000000 has nine integer digits, and normalising it again gives
    another value. *)
Theorem normalize_timestamp_half_has_nine_digits :
  int_log10 (1 # 2) = Some 0%Z /\
  _normalize_timestamp (1 # 2) = Some 500000000 /\
  500000000 < 10 ^ 9 /\
  _normalize_timestamp 500000000 = Some 5000000000.
Proof. repeat split; vm_compute; reflexivity. Qed.

(** ** [filter_data] on neighbouring samples *)

(** C7.  Two heart-rate lines in a row carry the value 255.  Removing the
    first one moves the second into the slot the iterator has just left, so
    the loop ends without looking at it: the stage reports success and keeps
    a sample above 254. *)
Theorem filter_data_keeps_second_of_two_bad_samples :
  option_map filter_data
    (read_file ["tp=h-r;k=1543646826;v=255;"; "tp=h-r;k=1543646827;v=255;"])
  = Some (mkData [] []
            [mkRow 1543646827 Blank Blank Blank Blank (Num 255) Blank]
            [] [], true) /\
  out_of_range hr 1 254
    (mkRow 1543646827 Blank Blank Blank Blank (Num 255) Blank) = Some true.
Proof. split; vm_compute; reflexivity. Qed.

(** [original_data] is the dictionary itself: when a comparison raises, the
    handler returns the lists with the removals already made. *)
Lemma filter_data_failure_returns_mutated_lists :
  filter_data
    (mkData [] []
       [mkRow 1 Blank Blank Blank Blank (Num 0) Blank;
        mkRow 2 Blank Blank Blank Blank (Num 60) Blank;
        mkRow 3 Blank Blank Blank Blank Blank Blank]
       [] [])
  = (mkData [] []
       [mkRow 2 Blank Blank Blank Blank (Num 60) Blank;
        mkRow 3 Blank Blank Blank Blank Blank Blank]
       [] [], false).
Proof. vm_compute; reflexivity. Qed.

(** ** [merge_data] keeps the order of time *)

Lemma insert_by_time_in (x z : row) (l : list row) :
  In z (insert_by_time x l) -> z = x \/ In z l.
Proof.
  induction l as [|y tl IH]; simpl.
  - intros [<- | []]. now left.
  - destruct (Qle_bool (time x) (time y)); simpl.
    + intros [<- | H]; auto.
    + intros [<- | H]; auto. destruct (IH H); auto.
Qed.

Lemma ascending_cons (x : row) (l : list row) :
  ascending (x :: l) <->
  ascending l /\ forall z, In z l -> time x <= time z.
Proof.
  unfold ascending. simpl. split.
  - intros H. inversion H as [|? ? S F]; subst. split; [exact S|].
    intros z Hz. rewrite Forall_forall in F. apply F. now apply in_map.
  - intros [S F]. constructor; [exact S|].
    rewrite Forall_forall. intros q Hq.
    apply in_map_iff in Hq. destruct Hq as (z & <- & Hz). now apply F.
Qed.

Lemma insert_by_time_ascending (x : row) (l : list row) :
  ascending l -> ascending (insert_by_time x l).
Proof.
  induction l as [|y tl IH]; intros S; simpl.
  - apply ascending_cons. split; [exact S | intros z []].
  - apply ascending_cons in S. destruct S as [S F].
    destruct (Qle_bool (time x) (time y)) eqn:E.
    + apply Qle_bool_iff in E.
      apply ascending_cons. split.
      * apply ascending_cons. now split.
      * intros z [<- | Hz]; [exact E|].
        apply Qle_trans with (time y); auto.
    + apply ascending_cons. split; [now apply IH|].
      intros z Hz. destruct (insert_by_time_in _ _ _ Hz) as [-> | Hz'].
      * destruct (Qlt_le_dec (time y) (time x)) as [L | G].
        -- now apply Qlt_le_weak.
        -- apply Qle_bool_iff in G. congruence.
      * now apply F.
Qed.

Lemma sorted_by_time_ascending (l : list row) : ascending (sorted_by_time l).
Proof.
  induction l as [|x tl IH]; simpl.
  - constructor.
  - now apply insert_by_time_ascending.
Qed.

Lemma remove_first_in (x z : row) (l : list row) :
  In z (remove_first x l) -> In z l.
Proof.
  induction l as [|y tl IH]; simpl; [auto|].
  destruct (row_eqb y x); simpl; intuition.
Qed.

Lemma remove_first_ascending (x : row) (l : list row) :
  ascending l -> ascending (remove_first x l).
Proof.
  induction l as [|y tl IH]; intros S; simpl; [exact S|].
  apply ascending_cons in S. destruct S as [S F].
  destruct (row_eqb y x); [exact S|].
  apply ascending_cons. split; [now apply IH|].
  intros z Hz. apply F. eapply remove_first_in; eauto.
Qed.

Lemma setx_time (x : nat) (v : cell) (r : row) : time (setx x v r) = time r.
Proof. do 6 (destruct x as [|x]; [reflexivity|]). reflexivity. Qed.

Lemma copy_back_time (entry prev : row) :
  time (copy_back entry prev) = time prev.
Proof.
  unfold copy_back. generalize (seq 1 6). intros xs. revert prev.
  induction xs as [|x xs IH]; intros prev; simpl; [reflexivity|].
  rewrite IH. destruct (truthy (getx x entry)); [apply setx_time | reflexivity].
Qed.

Lemma list_set_times (m : nat) (v p : row) (l : list row) :
  nth_error l m = Some p -> time v = time p ->
  map time (list_set m v l) = map time l.
Proof.
  revert m. induction l as [|y tl IH]; intros [|m] Hn Ht; simpl in *;
    try discriminate.
  - injection Hn as ->. now rewrite Ht.
  - f_equal. now apply IH.
Qed.

Lemma merge_turn_ascending (n : nat) (entry : row) (data : list row) :
  ascending data -> ascending (merge_turn n entry data).
Proof.
  intros S. destruct n as [|m]; simpl; [exact S|].
  destruct (nth_error data m) as [prev|] eqn:Hm; [|exact S].
  destruct (Qeq_bool (time entry) (time prev)); [|exact S].
  apply remove_first_ascending. unfold ascending.
  rewrite (list_set_times m _ prev); [exact S | exact Hm | apply copy_back_time].
Qed.

Lemma merge_loop_ascending :
  forall fuel n data, ascending data -> ascending (merge_loop fuel n data).
Proof.
  induction fuel as [|fuel IH]; intros n data S; simpl; [exact S|].
  destruct (nth_error data n) as [entry|]; [|exact S].
  apply IH. now apply merge_turn_ascending.
Qed.

(** X2.  The list [merge_data] returns is in ascending order of time. *)
Lemma merge_data_ascending (data : dataset) : ascending (merge_data data).
Proof.
  unfold merge_data. apply merge_loop_ascending, sorted_by_time_ascending.
Qed.

(** ** [merge_data] on shared timestamps *)

(** C2.  A position, a heart rate and a cadence carry the same second.  The
    heart rate is copied into the position and removed; the cadence record
    then sits at the index the loop has already passed, so it is never
    compared: the merged list holds two records with one timestamp. *)
Theorem merge_data_leaves_two_records_with_one_timestamp :
  forall M : MathLib,
    option_map merge_data
      (prepare (mkOptions true false "Running")
         ["tp=lbs;k=0;lat=40.44;lon=-79.5;alt=0.0;t=1.543646826E9;";
          "tp=h-r;k=1543646826;v=75;";
          "tp=s-r;k=1543646826;v=80;"])
    = Some
        [mkRow 1543646826 (Num (1011 # 25)) (Num (-159 # 2)) Blank (Num 0)
           (Num 75) Blank;
         mkRow 1543646826 Blank Blank Blank Blank Blank (Num 80)].
Proof. intros M. vm_compute. reflexivity. Qed.

(** C3.  A heart rate and a cadence of 0 carry the same second.  The test
    [if entry[x]:] is false for the number 0, so the cadence is not copied
    before its record is removed: the merged record has a blank cadence.
    The cadence 0 is within the bounds of [filter_data], which runs first
    here. *)
Theorem merge_data_drops_zero_cadence :
  forall M : MathLib,
    option_map merge_data
      (prepare (mkOptions true false "Running")
         ["tp=h-r;k=1543646826;v=75;"; "tp=s-r;k=1543646826;v=0;"])
    = Some [mkRow 1543646826 Blank Blank Blank Blank (Num 75) Blank].
Proof. intros M. vm_compute. reflexivity. Qed.

(** ** [calculate_lap_stats] on a lap of one sample *)

(** C6.  A lap with a single position starts and stops at that position's
    time, and the position's running distance is 0; the lap gets its
    duration and no distance, where the difference of the two running
    distances is 0. *)
Theorem calculate_lap_stats_single_sample_lap_has_no_distance :
  forall M : MathLib,
    prepare (mkOptions true false "Running")
      ["tp=lbs;k=0;lat=40.44;lon=-79.5;alt=0.0;t=1.543646826E9;"]
    = Some (mkData
              [mkRow 1543646826 (Num (1011 # 25)) (Num (-159 # 2)) Blank
                 (Num 0) Blank Blank]
              [] [] [] [[1543646826; 1543646826]]) /\
    (data <- prepare (mkOptions true false "Running")
               ["tp=lbs;k=0;lat=40.44;lon=-79.5;alt=0.0;t=1.543646826E9;"] ;;
     calculate_lap_stats data)
    = Some [[1543646826; 1543646826; 0]].
Proof. intros M. split; vm_compute; reflexivity. Qed.

(** ** [generate_xml] after an exception *)

(** C8.  A file with one heart-rate line has no lap, so [lap_stats[0][0]]
    raises while the [Id] element is being filled.  [generate_xml] reports
    the failure and returns the four elements built so far, and [main]
    saves them as [run.tcx]. *)
Theorem main_saves_partial_document :
  forall (M : MathLib) (fs : filesystem),
    (data <- prepare (mkOptions true false "Running")
               ["tp=h-r;k=1543646826;v=75;"] ;;
     file_details data)
    = Some ([mkRow 1543646826 Blank Blank Blank Blank (Num 75) Blank], []) /\
    snd (generate_xml
           [mkRow 1543646826 Blank Blank Blank Blank (Num 75) Blank] []
           (mkOptions true false "Running")) = false /\
    main "run" (mkOptions true false "Running")
      ["tp=h-r;k=1543646826;v=75;"] fs
    = Finished
        (("run.tcx",
          [mkElement "TrainingCenterDatabase"
             [("xsi:schemaLocation",
               Str "http://www.garmin.com/xmlschemas/TrainingCenterDatabase/v2 http://www.garmin.com/xmlschemas/TrainingCenterDatabasev2.xsd");
              ("xmlns",
               Str "http://www.garmin.com/xmlschemas/TrainingCenterDatabase/v2");
              ("xmlns:xsd", Str "http://www.w3.org/2001/XMLSchema");
              ("xmlns:xsi", Str "http://www.w3.org/2001/XMLSchema-instance");
              ("xmlns:ns3",
               Str "http://www.garmin.com/xmlschemas/ActivityExtension/v2")]
             None [1%nat];
           mkElement "Activities" [] None [2%nat];
           mkElement "Activity" [("Sport", Str "Running")] None [3%nat];
           mkElement "Id" [] None []]) :: fs).
Proof. intros M fs. repeat split; vm_compute; reflexivity. Qed.

(** ** Laps that start and stop at the same time *)

Lemma scan_gps_equal_bounds (g : list row) (start stop : Q) :
  start == stop ->
  forall sd, exists sd', scan_gps g start stop sd = Some (None, sd').
Proof.
  intros E. induction g as [|gps_data tl IH]; intros sd; simpl.
  - now exists sd.
  - destruct (Qeq_bool (time gps_data) start) eqn:Hs; [apply IH|].
    destruct (Qeq_bool (time gps_data) stop) eqn:Ht; [|apply IH].
    apply Qeq_bool_iff in Ht. apply Qeq_bool_false_iff in Hs.
    exfalso. apply Hs. now rewrite E.
Qed.

Lemma lap_loop_nth (g : list row) :
  forall laps sd stats n lap_data,
    lap_loop g laps sd = Some stats ->
    nth_error laps n = Some lap_data ->
    exists sd0 r,
      lap_turn g lap_data sd0 = Some r /\ nth_error stats n = Some (fst r).
Proof.
  induction laps as [|l0 rest IH]; intros sd stats n lap_data H Hn.
  - destruct n; discriminate.
  - simpl in H.
    destruct (lap_turn g l0 sd) as [r|] eqn:Hr; [|discriminate].
    destruct (lap_loop g rest (snd r)) as [rest'|] eqn:Hrest; [|discriminate].
    injection H as <-.
    destruct n as [|n]; simpl in *.
    + injection Hn as <-. now exists sd, r.
    + eapply IH; eauto.
Qed.

(** C9.  A lap whose start time equals its stop time gets its duration and
    nothing else, whatever [data['gps']] holds: a record at that time takes
    the start branch, so the [elif] that appends the distance is never
    reached.  The turn of the loop for that lap does not raise, and in the
    list the function returns the lap has no distance. *)
Theorem lap_with_equal_start_and_stop_has_no_distance :
  forall (lap_data : list Q) (start stop : Q),
    nth_error lap_data 0 = Some start ->
    nth_error lap_data 1 = Some stop ->
    start == stop ->
    (forall g sd, exists sd',
        lap_turn g lap_data sd = Some (lap_data ++ [stop - start], sd')) /\
    (forall data stats n,
        calculate_lap_stats data = Some stats ->
        nth_error (lap data) n = Some lap_data ->
        nth_error stats n = Some (lap_data ++ [stop - start])).
Proof.
  intros lap_data start stop H0 H1 E.
  assert (T : forall g sd, exists sd',
             lap_turn g lap_data sd = Some (lap_data ++ [stop - start], sd')).
  { intros g sd. unfold lap_turn. rewrite H0, H1.
    destruct (scan_gps_equal_bounds g start stop E sd) as [sd' ->].
    now exists sd'. }
  split; [exact T|].
  intros data stats n Hs Hn.
  destruct (lap_loop_nth _ _ _ _ _ _ Hs Hn) as (sd0 & r & Hr & ->).
  destruct (T (gps data) sd0) as [sd' HT].
  rewrite HT in Hr. injection Hr as <-. reflexivity.
Qed.

Lemma lap_with_equal_start_and_stop_witness :
  (forall g sd, exists sd',
      lap_turn g [1543646826; 1543646826] sd
      = Some ([1543646826; 1543646826] ++ [1543646826 - 1543646826], sd')) /\
  (forall data stats n,
      calculate_lap_stats data = Some stats ->
      nth_error (lap data) n = Some [1543646826; 1543646826] ->
      nth_error stats n
      = Some ([1543646826; 1543646826] ++ [1543646826 - 1543646826])).
Proof.
  apply (lap_with_equal_start_and_stop_has_no_distance
           [1543646826; 1543646826] 1543646826 1543646826);
    reflexivity.
Defined.

(** ** Sensor lines with a zero timestamp *)

Lemma alti_prefix (line : string) :
  substring 0 7 line = "tp=alti" -> substring 0 6 line = "tp=alt".
Proof.
  intros H.
  do 7 (destruct line as [|? line]; simpl in H; try discriminate H).
  injection H as -> -> -> -> -> -> ->. reflexivity.
Qed.

Lemma normalize_timestamp_zero : _normalize_timestamp (inject_Z 0) = None.
Proof. reflexivity. Qed.

Lemma py_trunc_zero (t : Q) : t == 0 -> py_trunc t = 0%Z.
Proof.
  intros E. unfold py_trunc.
  assert (L : Qle_bool 0 t = true) by (apply Qle_bool_iff; rewrite E; apply Qle_refl).
  rewrite L, E. reflexivity.
Qed.

Lemma int_float_field_zero (line : string) (x : nat) (t : Q) :
  float_field line x = Some t -> t == 0 ->
  int_float_field line x = Some 0%Z.
Proof.
  unfold float_field, int_float_field. intros H E.
  destruct (field line x) as [f|]; [|discriminate].
  rewrite H. now rewrite py_trunc_zero.
Qed.

Lemma read_line_zero_time (st : reader) (line : string) :
  zero_time_sensor_line line -> read_line st line = None.
Proof.
  intros [Hp (t & Hf & E)].
  pose proof (int_float_field_zero line 2 t Hf E) as Ht.
  unfold read_line.
  destruct Hp as [Hp | [Hp | Hp]].
  - rewrite Hp. simpl. rewrite Ht.
    destruct (int_field line 3); reflexivity.
  - rewrite Hp. simpl. rewrite Ht.
    destruct (int_field line 3); reflexivity.
  - rewrite (alti_prefix _ Hp), Hp. simpl. rewrite Ht.
    destruct (float_field line 3); reflexivity.
Qed.

Lemma read_lines_zero_time (line : string) :
  zero_time_sensor_line line ->
  forall f st, In line f -> read_lines st f = None.
Proof.
  intros Hz. induction f as [|l rest IH]; intros st Hin; [contradiction|].
  simpl. destruct Hin as [-> | Hin].
  - now rewrite read_line_zero_time.
  - destruct (read_line st l); [now apply IH | reflexivity].
Qed.

(** C10.  A heart-rate, cadence or altitude line with a zero time field
    makes [read_file] exit wherever it stands in the file, and [main] ends
    there without writing a file: [_normalize_timestamp] is applied to the
    zero, where [math.log10] raises.  A location line with a zero time takes
    the pause branch, which does not normalise. *)
Theorem zero_time_sensor_line_aborts_conversion :
  forall (M : MathLib) (input_file : string) (opts : options)
         (f : list string) (fs : filesystem) (line : string),
    In line f ->
    zero_time_sensor_line line ->
    _normalize_timestamp 0 = None /\
    read_file f = None /\
    main input_file opts f fs = Exited fs /\
    (forall st la lo, exists st', location_record st 0 la lo = Some st').
Proof.
  intros M input_file opts f fs line Hin Hz.
  assert (R : read_file f = None).
  { unfold read_file. now rewrite (read_lines_zero_time line Hz f _ Hin). }
  repeat split.
  - exact R.
  - unfold main, prepare. now rewrite R.
  - intros st la lo. rewrite location_record_pause; [eauto | left; reflexivity].
Qed.

Lemma zero_time_sensor_line_witness :
  _normalize_timestamp 0 = None /\
  read_file ["tp=lbs;k=0;lat=40.44;lon=-79.5;alt=0.0;t=1.543646826E9;";
             "tp=h-r;k=0;v=75;"] = None /\
  @main sample_math "run" (mkOptions true false "Running")
    ["tp=lbs;k=0;lat=40.44;lon=-79.5;alt=0.0;t=1.543646826E9;";
     "tp=h-r;k=0;v=75;"] [] = Exited [] /\
  (forall st la lo, exists st', location_record st 0 la lo = Some st').
Proof.
  apply (zero_time_sensor_line_aborts_conversion sample_math "run"
           (mkOptions true false "Running")
           ["tp=lbs;k=0;lat=40.44;lon=-79.5;alt=0.0;t=1.543646826E9;";
            "tp=h-r;k=0;v=75;"] [] "tp=h-r;k=0;v=75;").
  - simpl. right. left. reflexivity.
  - split; [left; reflexivity|].
    exists 0. split; vm_compute; reflexivity.
Defined.

(** ** Running distance *)

Section RunningDistance.
Context {M : MathLib}.




Hypothesis vincenty_nonneg :
  forall p q d, Vincenty._vincenty p q = Some d -> 0 <= d.




End RunningDistance.



(** ** More on timestamp normalisation *)

Lemma int_log10_none_iff (t : Q) : int_log10 t = None <-> t <= 0.
Proof.
  unfold int_log10. destruct (Qle_bool t 0) eqn:E.
  - apply Qle_bool_iff in E. tauto.
  - split; [destruct (Qle_bool 1 t); discriminate|].
    intros H. apply Qle_bool_iff in H. congruence.
Qed.


Lemma normalize_timestamp_value (t : Q) (oom : Z) :
  int_log10 t = Some oom ->
  exists t', _normalize_timestamp t = Some t' /\ t' == t * 10 ^ (9 - oom).
Proof.
  intros H. unfold _normalize_timestamp. rewrite H.
  destruct (oom =? 9)%Z eqn:E.
  - apply Z.eqb_eq in E. subst oom. exists t. split; [reflexivity|].
    simpl. ring.
  - eexists. split; [reflexivity|].
    rewrite Qred_correct, divisor_is_power.
    replace (oom - 9)%Z with (- (9 - oom))%Z by lia.
    rewrite Qpower_opp. unfold Qdiv. rewrite Qinv_involutive. reflexivity.
Qed.


Lemma normalize_timestamp_positive (t t' : Q) :
  _normalize_timestamp t = Some t' -> 0 < t'.
Proof.
  intros H. destruct (int_log10 t) as [oom|] eqn:Ho.
  - assert (P : 0 < t).
    { destruct (Qlt_le_dec 0 t) as [L | G]; [exact L|].
      apply int_log10_none_iff in G. congruence. }
    destruct (normalize_timestamp_value t oom Ho) as (t2 & H2 & E).
    rewrite H in H2. injection H2 as <-.
    rewrite E. apply Qmult_lt_0_compat; [exact P | apply ten_pow_pos].
  - unfold _normalize_timestamp in H. rewrite Ho in H. discriminate.
Qed.





(** ** [read_file]: lines without a tag *)

Lemma read_line_unrecognised (st : reader) (line : string) :
  recognised line = false -> read_line st line = Some st.
Proof.
  unfold recognised. rewrite !orb_false_iff. intros [[[H1 H2] H3] H4].
  unfold read_line. now rewrite H1, H2, H3, H4.
Qed.

Lemma read_lines_filter_recognised (f : list string) :
  forall st, read_lines st f = read_lines st (filter recognised f).
Proof.
  induction f as [|line rest IH]; intros st; simpl; [reflexivity|].
  destruct (recognised line) eqn:E; simpl.
  - destruct (read_line st line); [apply IH | reflexivity].
  - rewrite read_line_unrecognised by exact E. apply IH.
Qed.

(** X6.  Lines that start with none of the four tags do not take part in
    the result: reading a file gives what reading its tagged lines gives. *)
Theorem read_file_ignores_unrecognised_lines (f : list string) :
  read_file f = read_file (filter recognised f).
Proof.
  unfold read_file. now rewrite read_lines_filter_recognised.
Qed.

(** ** [read_file]: what the lists hold *)

Lemma time_of_app (g : list row) (r : row) (t : Q) :
  time_of g t -> time_of (g ++ [r]) t.
Proof. unfold time_of. rewrite map_app, in_app_iff. auto. Qed.

Lemma time_of_last (g : list row) (r : row) : time_of (g ++ [r]) (time r).
Proof. unfold time_of. rewrite map_app, in_app_iff. right. now left. Qed.

Lemma lap_ok_app (g : list row) (r : row) (s e : Q) :
  lap_ok g s e -> lap_ok (g ++ [r]) s e.
Proof.
  intros [H | (P & L & Hs & He)]; [now left | right].
  auto using time_of_app.
Qed.

Lemma Forall_snoc {A : Type} (P : A -> Prop) (l : list A) (x : A) :
  Forall P l -> P x -> Forall P (l ++ [x]).
Proof. intros Hl Hx. apply Forall_app. split; [exact Hl | now constructor]. Qed.

Lemma location_record_ok (st st' : reader) (t la lo : Q) :
  reader_ok st -> location_record st t la lo = Some st' -> reader_ok st'.
Proof.
  intros (G & A & H & C & Lp & Cur) E. unfold location_record in E.
  destruct (lap_start_stop st) as [l0 l1] eqn:Els. simpl in Cur.
  destruct (is_position t la lo) eqn:Ep.
  - destruct (_normalize_timestamp t) as [t'|] eqn:En; [|discriminate].
    injection E as <-.
    pose proof (normalize_timestamp_positive _ _ En) as Pt.
    unfold is_position in Ep. rewrite !andb_true_iff, !negb_true_iff in Ep.
    destruct Ep as [[_ E90] E80].
    apply Qeq_bool_false_iff in E90. apply Qeq_bool_false_iff in E80.
    set (r := mkRow t' (Num la) (Num lo) Blank Blank Blank Blank).
    unfold reader_ok; simpl. repeat split; try assumption.
    + apply Forall_snoc; [exact G|]. exists la, lo. repeat split; assumption.
    + eapply Forall_impl; [|exact Lp]. intros l (s & e & -> & Hl).
      exists s, e. split; [reflexivity | now apply lap_ok_app].
    + right. destruct Cur as [[-> ->] | (P0 & L01 & H0 & H1)].
      * assert (E1 : Qle_bool t' 0 = false).
        { destruct (Qle_bool t' 0) eqn:B; [|reflexivity].
          apply Qle_bool_iff in B. exfalso. apply (Qlt_irrefl 0).
          now apply Qlt_le_trans with t'. }
        rewrite E1. simpl.
        repeat split; [exact Pt | apply Qle_refl | apply (time_of_last _ r)
                      | apply (time_of_last _ r)].
      * assert (E0 : Qeq_bool l0 0 = false).
        { apply Qeq_bool_false_iff. intros Z0. rewrite Z0 in P0. discriminate. }
        rewrite E0.
        destruct (Qle_bool t' l1) eqn:B; simpl.
        -- repeat split; auto using time_of_app.
        -- repeat split; [exact P0 | | now apply time_of_app
                         | apply (time_of_last _ r)].
           destruct (Qlt_le_dec l1 t') as [L | G'].
           ++ apply Qle_trans with l1; [exact L01 | now apply Qlt_le_weak].
           ++ apply Qle_bool_iff in G'. congruence.
  - injection E as <-. unfold reader_ok; simpl.
    repeat split; try assumption.
    + apply Forall_snoc; [exact Lp|]. now exists l0, l1.
    + now left.
Qed.

Lemma sensor_time_positive (z : Z) (t' : Q) :
  _normalize_timestamp (inject_Z z) = Some t' -> 0 < t'.
Proof. apply normalize_timestamp_positive. Qed.

Lemma read_line_ok (st st' : reader) (line : string) :
  reader_ok st -> read_line st line = Some st' -> reader_ok st'.
Proof.
  intros Hok E. unfold read_line in E.
  destruct (substring 0 6 line =? "tp=lbs").
  { destruct (float_field line 6) as [t|]; [|discriminate].
    destruct (float_field line 3) as [la|]; [|discriminate].
    destruct (float_field line 4) as [lo|]; [|discriminate].
    now apply (location_record_ok st st' t la lo). }
  destruct Hok as (G & A & H & C & Lp & Cur).
  destruct (substring 0 6 line =? "tp=h-r").
  { destruct (int_float_field line 2) as [t|]; [|discriminate].
    destruct (int_field line 3) as [v|]; [|discriminate].
    destruct (_normalize_timestamp (inject_Z t)) as [t'|] eqn:En; [|discriminate].
    injection E as <-. unfold reader_ok; simpl. repeat split; try assumption.
    apply Forall_snoc; [exact H|].
    split; [now apply (sensor_time_positive t) | now exists (inject_Z v)]. }
  destruct (substring 0 6 line =? "tp=s-r").
  { destruct (int_float_field line 2) as [t|]; [|discriminate].
    destruct (int_field line 3) as [v|]; [|discriminate].
    destruct (_normalize_timestamp (inject_Z t)) as [t'|] eqn:En; [|discriminate].
    injection E as <-. unfold reader_ok; simpl. repeat split; try assumption.
    apply Forall_snoc; [exact C|].
    split; [now apply (sensor_time_positive t) | now exists (inject_Z v)]. }
  destruct (substring 0 7 line =? "tp=alti").
  { destruct (int_float_field line 2) as [t|]; [|discriminate].
    destruct (float_field line 3) as [v|]; [|discriminate].
    destruct (_normalize_timestamp (inject_Z t)) as [t'|] eqn:En; [|discriminate].
    injection E as <-. unfold reader_ok; simpl. repeat split; try assumption.
    apply Forall_snoc; [exact A|].
    split; [now apply (sensor_time_positive t) | now exists v]. }
  injection E as <-. unfold reader_ok. auto 10.
Qed.

Lemma read_lines_ok (f : list string) :
  forall st st', reader_ok st -> read_lines st f = Some st' -> reader_ok st'.
Proof.
  induction f as [|line rest IH]; intros st st' Hok E; simpl in E.
  - now injection E as <-.
  - destruct (read_line st line) as [st1|] eqn:E1; [|discriminate].
    eapply IH; [|exact E]. eapply read_line_ok; eauto.
Qed.

Lemma reader_init_ok : reader_ok reader_init.
Proof.
  unfold reader_ok, reader_init; simpl.
  repeat split; try (now constructor).
Qed.

Lemma insert_by_time_in_iff (x z : row) (l : list row) :
  In z (insert_by_time x l) <-> z = x \/ In z l.
Proof.
  split; [apply insert_by_time_in|].
  induction l as [|y tl IH]; simpl.
  - intros [-> | []]. now left.
  - destruct (Qle_bool (time x) (time y)); simpl.
    + intros [-> | [-> | H]]; auto.
    + intros [-> | [-> | H]]; auto.
Qed.

Lemma sorted_by_time_in_iff (z : row) (l : list row) :
  In z (sorted_by_time l) <-> In z l.
Proof.
  induction l as [|x tl IH]; simpl; [tauto|].
  rewrite insert_by_time_in_iff, IH. intuition.
Qed.

Lemma time_of_sorted (g : list row) (t : Q) :
  time_of g t -> time_of (sorted_by_time g) t.
Proof.
  unfold time_of. rewrite !in_map_iff. intros (r & E & H).
  exists r. split; [exact E | now apply sorted_by_time_in_iff].
Qed.

Lemma lap_ok_sorted (g : list row) (s e : Q) :
  lap_ok g s e -> lap_ok (sorted_by_time g) s e.
Proof.
  intros [H | (P & L & Hs & He)]; [now left | right].
  auto using time_of_sorted.
Qed.

Lemma read_file_reader (f : list string) (d : dataset) :
  read_file f = Some d ->
  exists st,
    reader_ok st /\
    gps d = sorted_by_time (gps (r_data st)) /\
    alti_s d = alti_s (r_data st) /\ hr_s d = hr_s (r_data st) /\
    cad_s d = cad_s (r_data st) /\
    (lap d = lap (r_data st) \/
     lap d = lap (r_data st) ++
             [[fst (lap_start_stop st); snd (lap_start_stop st)]]).
Proof.
  unfold read_file. intros E.
  destruct (read_lines reader_init f) as [st|] eqn:Er; [|discriminate].
  exists st. split; [eapply read_lines_ok; eauto using reader_init_ok|].
  destruct (lap_start_stop st) as [l0 l1]. injection E as <-. simpl.
  repeat split. destruct (negb (Qeq_bool l0 0)); auto.
Qed.

(** What [read_file] returns, all in one. *)
Lemma read_file_shape (f : list string) (d : dataset) :
  read_file f = Some d ->
  ascending (gps d) /\ Forall stored_position (gps d) /\
  Forall (sensor_record 3) (alti_s d) /\
  Forall (sensor_record 5) (hr_s d) /\
  Forall (sensor_record 6) (cad_s d) /\
  Forall (fun l => exists start stop, l = [start; stop] /\ lap_ok (gps d) start stop)
    (lap d).
Proof.
  intros E. destruct (read_file_reader f d E)
    as (st & (G & A & H & C & Lp & Cur) & Eg & -> & -> & -> & El).
  rewrite Eg.
  split; [apply sorted_by_time_ascending|].
  split.
  { rewrite Forall_forall in *. intros r Hr. apply G.
    now apply sorted_by_time_in_iff. }
  do 3 (split; [assumption|]).
  assert (L1 : Forall (fun l => exists s e, l = [s; e] /\
                         lap_ok (sorted_by_time (gps (r_data st))) s e)
                 (lap (r_data st))).
  { eapply Forall_impl; [|exact Lp]. intros l (s & e & -> & Hl).
    exists s, e. split; [reflexivity | now apply lap_ok_sorted]. }
  destruct El as [-> | ->]; [exact L1|].
  apply Forall_snoc; [exact L1|].
  eexists _, _. split; [reflexivity | now apply lap_ok_sorted].
Qed.

(** X7.  Every lap that [read_file] returns is a pair [[start, stop]] that
    is either zeroed (a pause with no position before it) or has
    [0 < start <= stop] with both bounds being times of returned position
    records. *)
Theorem read_file_laps (f : list string) (d : dataset) :
  read_file f = Some d ->
  Forall (fun l => exists start stop, l = [start; stop] /\ lap_ok (gps d) start stop)
    (lap d).
Proof.
  intros E. now destruct (read_file_shape f d E) as (_ & _ & _ & _ & _ & L).
Qed.

(** X8.  The positions that [read_file] returns are in ascending order of
    time; each one has a positive time, a latitude other than 90 and a
    longitude other than -80, and blank altitude, distance, heart rate and
    cadence. *)
Theorem read_file_positions (f : list string) (d : dataset) :
  read_file f = Some d ->
  ascending (gps d) /\ Forall stored_position (gps d).
Proof.
  intros E. destruct (read_file_shape f d E) as (A & G & _). now split.
Qed.

(** X9.  Each record of the altitude, heart-rate and cadence lists that
    [read_file] returns has a positive time and a number in its own slot
    only. *)
Theorem read_file_sensor_records (f : list string) (d : dataset) :
  read_file f = Some d ->
  Forall (sensor_record 3) (alti_s d) /\
  Forall (sensor_record 5) (hr_s d) /\
  Forall (sensor_record 6) (cad_s d).
Proof.
  intros E. destruct (read_file_shape f d E) as (_ & _ & A & H & C & _).
  auto.
Qed.

(** ** [filter_data]: what is kept *)

Lemma cell_eqb_refl (c : cell) : cell_eqb c c = true.
Proof. destruct c; simpl; [reflexivity | apply Qeq_bool_iff; reflexivity]. Qed.

Lemma row_eqb_refl (r : row) : row_eqb r r = true.
Proof.
  unfold row_eqb. rewrite !cell_eqb_refl.
  assert (E : Qeq_bool (time r) (time r) = true) by (apply Qeq_bool_iff; reflexivity).
  now rewrite E.
Qed.

Lemma remove_first_middle (x : row) (done tl : list row) :
  (forall y, In y done -> row_eqb y x = false) ->
  remove_first x (done ++ x :: tl) = done ++ tl.
Proof.
  induction done as [|y done' IH]; intros H; simpl.
  - now rewrite row_eqb_refl.
  - rewrite (H y) by now left. f_equal. apply IH. intros z Hz. apply H. now right.
Qed.

Lemma distinct_rows_app_inv (l1 l2 : list row) :
  distinct_rows (l1 ++ l2) ->
  distinct_rows l1 /\ distinct_rows l2 /\
  forall a b, In a l1 -> In b l2 -> row_eqb b a = false.
Proof.
  induction l1 as [|x l1 IH]; simpl.
  - intros H. repeat split; [exact H | intros a b []].
  - intros [Hx Hd]. destruct (IH Hd) as (D1 & D2 & C).
    repeat split; auto.
    + intros y Hy. apply Hx. apply in_app_iff. now left.
    + intros a b [<- | Ha] Hb; [|now apply C].
      apply Hx. apply in_app_iff. now right.
Qed.

Lemma row_eqb_sym (a b : row) : row_eqb a b = row_eqb b a.
Proof.
  assert (Q : forall x y, Qeq_bool x y = Qeq_bool y x).
  { intros x y. destruct (Qeq_bool x y) eqn:E, (Qeq_bool y x) eqn:F; auto.
    - apply Qeq_bool_iff in E. symmetry in E. apply Qeq_bool_iff in E. congruence.
    - apply Qeq_bool_iff in F. symmetry in F. apply Qeq_bool_iff in F. congruence. }
  assert (C : forall x y, cell_eqb x y = cell_eqb y x)
    by (intros [|x] [|y]; simpl; auto).
  unfold row_eqb.
  now rewrite (Q (time a)), (C (lat a)), (C (long a)), (C (alti a)),
    (C (dist a)), (C (hr a)), (C (cad a)).
Qed.

(** The loop from index [length done] on, when the list is [done ++ todo]. *)
Lemma distinct_rows_drop (done tl : list row) (x : row) :
  distinct_rows (done ++ x :: tl) -> distinct_rows (done ++ tl).
Proof.
  induction done as [|z done IH]; simpl; [tauto|].
  intros [Hz D]. split; [|now apply IH].
  intros w Hw. apply Hz. apply in_app_iff in Hw. apply in_app_iff.
  destruct Hw as [Hw | Hw]; [now left | right; now right].
Qed.

Lemma snoc_app {A : Type} (l tl : list A) (x : A) :
  l ++ x :: tl = (l ++ [x]) ++ tl.
Proof. now rewrite <- app_assoc. Qed.

Lemma filter_loop_passing (test : row -> option bool) :
  forall n todo done fuel,
    (List.length todo <= n)%nat ->
    distinct_rows (done ++ todo) ->
    isolated_failures test todo ->
    (List.length todo < fuel)%nat ->
    filter_loop test fuel (List.length done) (done ++ todo)
    = (done ++ passing test todo, true).
Proof.
  assert (Stop : forall done fuel, (0 < fuel)%nat ->
            filter_loop test fuel (List.length done) done = (done, true)).
  { intros done [|fuel] Hf; [lia|]. cbn [filter_loop].
    assert (E : nth_error done (List.length done) = None)
      by (apply nth_error_None; lia).
    now rewrite E. }
  induction n as [|n IH]; intros todo done fuel Hn D I F.
  - destruct todo; [|simpl in Hn; lia].
    cbn [passing filter]. rewrite !app_nil_r. apply Stop. simpl in F. lia.
  - destruct todo as [|x tl].
    + cbn [passing filter]. rewrite !app_nil_r. apply Stop. simpl in F. lia.
    + destruct fuel as [|fuel]; [simpl in F; lia|]. simpl in F, Hn.
      cbn [filter_loop].
      rewrite nth_error_app2 by lia. rewrite Nat.sub_diag. cbn [nth_error].
      cbn [isolated_failures] in I. unfold passing. cbn [filter].
      fold (passing test tl).
      destruct (test x) as [[|]|] eqn:Tx; [| |contradiction].
      * destruct I as [Inext I].
        destruct (distinct_rows_app_inv _ _ D) as (_ & _ & C).
        rewrite remove_first_middle
          by (intros y Hy; rewrite row_eqb_sym; apply (C y x Hy); now left).
        apply distinct_rows_drop in D.
        destruct tl as [|y tl'].
        -- rewrite app_nil_r. cbn [passing filter]. rewrite app_nil_r.
           destruct fuel as [|fuel]; [lia|]. cbn [filter_loop].
           assert (E : nth_error done (S (List.length done)) = None)
             by (apply nth_error_None; lia).
           now rewrite E.
        -- unfold passing. cbn [filter]. rewrite Inext.
           fold (passing test tl').
           cbn [isolated_failures] in I. rewrite Inext in I.
           rewrite (snoc_app done tl'), (snoc_app done (passing test tl')).
           replace (S (List.length done)) with (List.length (done ++ [y]))
             by (rewrite length_app; simpl; lia).
           apply IH; [simpl in Hn; lia | | exact I | simpl in F; lia].
           rewrite <- snoc_app. exact D.
      * rewrite (snoc_app done tl), (snoc_app done (passing test tl)).
        replace (S (List.length done)) with (List.length (done ++ [x]))
          by (rewrite length_app; simpl; lia).
        apply IH; [lia | rewrite <- snoc_app; exact D | exact I | lia].
Qed.

(** On a list without equal records in which no record out of range
    directly follows another one, the loop removes exactly the records out
    of range. *)
Lemma filter_list_removes_isolated_failures
  (test : row -> option bool) (l : list row) :
  distinct_rows l ->
  isolated_failures test l ->
  filter_list test l = (passing test l, true).
Proof.
  intros D I. unfold filter_list.
  apply (filter_loop_passing test (List.length l) l [] (S (List.length l))); auto.
Qed.

Lemma filter_loop_all_pass (test : row -> option bool) :
  forall todo done fuel,
    Forall (fun r => test r = Some false) todo ->
    (List.length todo < fuel)%nat ->
    filter_loop test fuel (List.length done) (done ++ todo)
    = (done ++ todo, true).
Proof.
  induction todo as [|x tl IH]; intros done fuel A F.
  - destruct fuel as [|fuel]; [simpl in F; lia|]. cbn [filter_loop].
    rewrite app_nil_r.
    assert (E : nth_error done (List.length done) = None)
      by (apply nth_error_None; lia).
    now rewrite E.
  - destruct fuel as [|fuel]; [simpl in F; lia|]. simpl in F.
    cbn [filter_loop].
    rewrite nth_error_app2 by lia. rewrite Nat.sub_diag. cbn [nth_error].
    inversion A as [|? ? Hx Htl]; subst. rewrite Hx.
    rewrite (snoc_app done tl).
    replace (S (List.length done)) with (List.length (done ++ [x]))
      by (rewrite length_app; simpl; lia).
    apply IH; [exact Htl | lia].
Qed.

(** X10.  A dataset whose heart rates, cadences and altitudes are all within
    bounds comes out of [filter_data] unchanged, with [OKAY]. *)
Theorem filter_data_keeps_clean_dataset (data : dataset) :
  Forall (fun r => out_of_range hr 1 254 r = Some false) (hr_s data) ->
  Forall (fun r => out_of_range cad 0 254 r = Some false) (cad_s data) ->
  Forall (fun r => out_of_range alti (-1000) 10000 r = Some false) (alti_s data) ->
  filter_data data = (data, true).
Proof.
  intros H C A. unfold filter_data, filter_list.
  rewrite (filter_loop_all_pass _ (hr_s data) [] _ H) by lia.
  rewrite (filter_loop_all_pass _ (cad_s data) [] _ C) by lia.
  rewrite (filter_loop_all_pass _ (alti_s data) [] _ A) by lia.
  simpl. now destruct data.
Qed.

(** X11.  When no stream holds two equal records, and no record out of range
    directly follows another one of its stream, [filter_data] removes
    exactly the records out of range and reports [OKAY]. *)
Theorem filter_data_removes_isolated_failures (data : dataset) :
  distinct_rows (hr_s data) -> isolated_failures (out_of_range hr 1 254) (hr_s data) ->
  distinct_rows (cad_s data) -> isolated_failures (out_of_range cad 0 254) (cad_s data) ->
  distinct_rows (alti_s data) ->
  isolated_failures (out_of_range alti (-1000) 10000) (alti_s data) ->
  filter_data data
  = (mkData (gps data)
       (passing (out_of_range alti (-1000) 10000) (alti_s data))
       (passing (out_of_range hr 1 254) (hr_s data))
       (passing (out_of_range cad 0 254) (cad_s data))
       (lap data), true).
Proof.
  intros Dh Ih Dc Ic Da Ia. unfold filter_data.
  rewrite (filter_list_removes_isolated_failures _ _ Dh Ih).
  rewrite (filter_list_removes_isolated_failures _ _ Dc Ic).
  rewrite (filter_list_removes_isolated_failures _ _ Da Ia).
  reflexivity.
Qed.

Lemma filter_loop_incl (test : row -> option bool) :
  forall fuel i l, incl (fst (filter_loop test fuel i l)) l.
Proof.
  induction fuel as [|fuel IH]; intros i l; simpl; [apply incl_refl|].
  destruct (nth_error l i) as [line|]; [|apply incl_refl].
  destruct (test line) as [[|]|]; [|apply IH|apply incl_refl].
  intros r Hr. apply IH in Hr. eapply remove_first_in; eauto.
Qed.

Lemma filter_loop_length (test : row -> option bool) :
  forall fuel i l,
    (List.length (fst (filter_loop test fuel i l)) <= List.length l)%nat.
Proof.
  induction fuel as [|fuel IH]; intros i l; simpl; [lia|].
  destruct (nth_error l i) as [line|]; [|simpl; lia].
  destruct (test line) as [[|]|]; [|apply IH|simpl; lia].
  etransitivity; [apply IH | apply remove_first_length].
Qed.

(** X12.  [filter_data] leaves the positions and the laps alone, and what it
    returns for a sensor stream holds only records of that stream, and no
    more of them than before; this holds whether it reports [OKAY] or
    [FAILED]. *)
Theorem filter_data_only_removes (data : dataset) :
  gps (fst (filter_data data)) = gps data /\
  lap (fst (filter_data data)) = lap data /\
  incl (hr_s (fst (filter_data data))) (hr_s data) /\
  incl (cad_s (fst (filter_data data))) (cad_s data) /\
  incl (alti_s (fst (filter_data data))) (alti_s data) /\
  (List.length (hr_s (fst (filter_data data))) <= List.length (hr_s data))%nat /\
  (List.length (cad_s (fst (filter_data data))) <= List.length (cad_s data))%nat /\
  (List.length (alti_s (fst (filter_data data))) <= List.length (alti_s data))%nat.
Proof.
  unfold filter_data, filter_list.
  pose proof (filter_loop_incl (out_of_range hr 1 254)
                (S (List.length (hr_s data))) 0 (hr_s data)) as Hh.
  pose proof (filter_loop_incl (out_of_range cad 0 254)
                (S (List.length (cad_s data))) 0 (cad_s data)) as Hc.
  pose proof (filter_loop_incl (out_of_range alti (-1000) 10000)
                (S (List.length (alti_s data))) 0 (alti_s data)) as Ha.
  pose proof (filter_loop_length (out_of_range hr 1 254)
                (S (List.length (hr_s data))) 0 (hr_s data)) as Lh.
  pose proof (filter_loop_length (out_of_range cad 0 254)
                (S (List.length (cad_s data))) 0 (cad_s data)) as Lc.
  pose proof (filter_loop_length (out_of_range alti (-1000) 10000)
                (S (List.length (alti_s data))) 0 (alti_s data)) as La.
  destruct (filter_loop (out_of_range hr 1 254) _ 0 (hr_s data)) as [h okh].
  destruct (filter_loop (out_of_range cad 0 254) _ 0 (cad_s data)) as [c okc].
  destruct (filter_loop (out_of_range alti (-1000) 10000) _ 0 (alti_s data))
    as [a oka].
  simpl in *.
  destruct okh; simpl; [|repeat split; auto using incl_refl].
  destruct okc; simpl; repeat split; auto using incl_refl.
Qed.

(** ** [process_gps]: when it returns *)

Section Legs.
Context {M : MathLib}.

Lemma running_distance_leg (entry prev : row) (pd : Q) :
  dist prev = Num pd ->
  running_distance entry prev
  = match leg prev entry with Some v => Some (v + pd) | None => None end.
Proof.
  intros H. unfold running_distance, leg.
  destruct (float_cell (lat entry)); [|reflexivity].
  destruct (float_cell (long entry)); [|reflexivity].
  destruct (float_cell (lat prev)); [|reflexivity].
  destruct (float_cell (long prev)); [|reflexivity].
  destruct (Vincenty._vincenty _ _); [|reflexivity].
  now rewrite H.
Qed.

Lemma leg_setx_dist_l (c : cell) (a b : row) : leg (setx 4 c a) b = leg a b.
Proof. reflexivity. Qed.

Lemma leg_setx_dist_r (c : cell) (a b : row) : leg a (setx 4 c b) = leg a b.
Proof. reflexivity. Qed.

Lemma gps_loop_succeeds_iff :
  forall rest prev pd,
    dist prev = Num pd ->
    (gps_loop prev rest <> None <->
     forall n a b,
       nth_error (prev :: rest) n = Some a ->
       nth_error (prev :: rest) (S n) = Some b ->
       leg a b <> None).
Proof.
  induction rest as [|entry tl IH]; intros prev pd Hd.
  - simpl. split; [|discriminate].
    intros _ n a b _ Hb. destruct n; simpl in Hb; [discriminate|].
    destruct n; discriminate.
  - cbn [gps_loop]. rewrite (running_distance_leg entry prev pd Hd).
    destruct (leg prev entry) as [v|] eqn:Hl.
    + specialize (IH (setx 4 (Num (v + pd)) entry) (v + pd) eq_refl).
      destruct (gps_loop (setx 4 (Num (v + pd)) entry) tl) as [tl'|].
      * split; [|discriminate]. intros _ n a b Ha Hb.
        destruct n as [|n].
        -- simpl in Ha, Hb. injection Ha as <-. injection Hb as <-. congruence.
        -- destruct IH as [IH _]. specialize (IH ltac:(discriminate)).
           destruct n as [|n].
           ++ simpl in Ha. injection Ha as <-.
              change (leg (setx 4 (Num (v + pd)) entry) b <> None).
              apply (IH 0%nat); [reflexivity | exact Hb].
           ++ apply (IH (S n)); [exact Ha | exact Hb].
      * split; [intros F; now contradiction F|].
        intros A. exfalso. destruct IH as [_ IH]. apply IH; [|reflexivity].
        intros n a b Ha Hb. destruct n as [|n].
        -- simpl in Ha. injection Ha as <-.
           change (leg entry b <> None).
           apply (A 1%nat); [reflexivity | exact Hb].
        -- apply (A (S (S n))); [exact Ha | exact Hb].
    + split; [intros F; now contradiction F|].
      intros A. exfalso. apply (A 0%nat prev entry); auto.
Qed.

(** X13.  [process_gps] returns exactly when [_vincenty] yields a distance for
    every pair of neighbouring positions (numeric coordinates, and an
    iteration that converges); a list of one position or none always
    passes. *)
Theorem process_gps_returns_iff (data : dataset) :
  process_gps data <> None <->
  forall n a b,
    nth_error (gps data) n = Some a ->
    nth_error (gps data) (S n) = Some b ->
    leg a b <> None.
Proof.
  unfold process_gps, process_gps_list.
  destruct (gps data) as [|entry tl].
  - split; [|discriminate]. intros _ [|n] a b Ha; discriminate.
  - pose proof (gps_loop_succeeds_iff tl (setx 4 (Num 0) entry) 0 eq_refl) as G.
    destruct (gps_loop (setx 4 (Num 0) entry) tl) as [tl'|].
    + split; [|discriminate]. intros _ n a b Ha Hb.
      destruct G as [G _]. specialize (G ltac:(discriminate)).
      destruct n as [|n].
      * simpl in Ha. injection Ha as <-.
        change (leg (setx 4 (Num 0) entry) b <> None). apply (G 0%nat); auto.
      * apply (G (S n)); auto.
    + split; [intros F; now contradiction F|].
      intros A. exfalso. destruct G as [_ G]. apply G; [|reflexivity].
      intros n a b Ha Hb. destruct n as [|n].
      * simpl in Ha. injection Ha as <-.
        change (leg entry b <> None). apply (A 0%nat); auto.
      * apply (A (S n)); auto.
Qed.

Lemma gps_loop_shape :
  forall rest prev out,
    gps_loop prev rest = Some out ->
    map time out = map time rest /\ Forall has_distance out.
Proof.
  induction rest as [|entry tl IH]; intros prev out H; cbn [gps_loop] in H.
  - injection H as <-. split; [reflexivity | constructor].
  - destruct (running_distance entry prev) as [d|]; [|discriminate].
    destruct (gps_loop (setx 4 (Num d) entry) tl) as [tl'|] eqn:Htl;
      [|discriminate].
    injection H as <-. destruct (IH _ _ Htl) as [T D].
    split; [simpl; now rewrite T|].
    constructor; [now exists d | exact D].
Qed.

Lemma process_gps_shape (data data' : dataset) :
  process_gps data = Some data' ->
  map time (gps data') = map time (gps data) /\
  Forall has_distance (gps data') /\
  alti_s data' = alti_s data /\ hr_s data' = hr_s data /\
  cad_s data' = cad_s data /\ lap data' = lap data.
Proof.
  unfold process_gps, process_gps_list. intros H.
  destruct (gps data) as [|entry tl].
  - injection H as <-. simpl. repeat split. constructor.
  - destruct (gps_loop (setx 4 (Num 0) entry) tl) as [tl'|] eqn:Htl;
      [|discriminate].
    injection H as <-. destruct (gps_loop_shape _ _ _ Htl) as [T D]. simpl.
    repeat split; [now rewrite T|].
    constructor; [now exists 0 | exact D].
Qed.

End Legs.

(** ** [calculate_lap_stats]: laps with two bounds *)

Lemma cumulative_sub (re rs : row) :
  has_distance re -> has_distance rs ->
  cell_sub (dist re) (dist rs) = Some (cumulative re - cumulative rs).
Proof.
  intros [qe He] [qs Hs]. unfold cumulative. now rewrite He, Hs.
Qed.

(** The scan once a record at the start time has been seen. *)
Lemma scan_gps_after_start (start stop : Q) :
  ~ start == stop ->
  forall g rs,
    time rs == start -> has_distance rs ->
    Forall has_distance g ->
    (exists re, In re g /\ time re == stop) ->
    exists rs' re,
      (rs' = rs \/ In rs' g) /\ In re g /\
      time rs' == start /\ time re == stop /\
      scan_gps g start stop (Some (dist rs))
      = Some (Some (cumulative re - cumulative rs'), Some (dist rs')).
Proof.
  intros Ne. induction g as [|r tl IH]; intros rs Hs Ds D (re & Hin & He).
  - contradiction.
  - inversion D as [|? ? Dr Dtl]; subst. cbn [scan_gps].
    destruct (Qeq_bool (time r) start) eqn:Es.
    + apply Qeq_bool_iff in Es.
      destruct Hin as [<- | Hin].
      * exfalso. apply Ne. now rewrite <- Es, <- He.
      * destruct (IH r Es Dr Dtl (ex_intro _ re (conj Hin He)))
          as (rs' & re' & Hrs & Hre & T1 & T2 & Sc).
        exists rs', re'. split; [|split; [now right | auto]].
        destruct Hrs as [-> | Hrs]; [right; now left | right; now right].
    + destruct (Qeq_bool (time r) stop) eqn:Et.
      * apply Qeq_bool_iff in Et. cbn.
        rewrite (cumulative_sub r rs Dr Ds).
        exists rs, r. split; [now left | split; [now left | auto]].
      * destruct Hin as [<- | Hin].
        -- apply Qeq_bool_false_iff in Et. contradiction.
        -- destruct (IH rs Hs Ds Dtl (ex_intro _ re (conj Hin He)))
             as (rs' & re' & Hrs & Hre & T1 & T2 & Sc).
           exists rs', re'. split; [|split; [now right | auto]].
           destruct Hrs as [-> | Hrs]; [now left | right; now right].
Qed.

Lemma ascending_head_le (r x : row) (tl : list row) :
  ascending (r :: tl) -> In x tl -> time r <= time x.
Proof. intros A. apply ascending_cons in A. now apply A. Qed.

Lemma ascending_tail (r : row) (tl : list row) :
  ascending (r :: tl) -> ascending tl.
Proof. intros A. now apply ascending_cons in A. Qed.

(** The scan of a list in ascending order for a lap with [start < stop]
    whose bounds are both times of records. *)
Lemma scan_gps_ascending (start stop : Q) :
  start < stop ->
  forall g sd,
    ascending g ->
    Forall has_distance g ->
    (exists rs, In rs g /\ time rs == start) ->
    (exists re, In re g /\ time re == stop) ->
    exists rs re sd',
      In rs g /\ In re g /\ time rs == start /\ time re == stop /\
      scan_gps g start stop sd
      = Some (Some (cumulative re - cumulative rs), sd').
Proof.
  intros Lt.
  assert (Ne : ~ start == stop).
  { intros E. rewrite E in Lt. now apply Qlt_irrefl in Lt. }
  induction g as [|r tl IH]; intros sd A D (rs & Hrs & Ts) (re & Hre & Te).
  - contradiction.
  - inversion D as [|? ? Dr Dtl]; subst. cbn [scan_gps].
    destruct (Qeq_bool (time r) start) eqn:Es.
    + apply Qeq_bool_iff in Es.
      assert (Hre' : In re tl).
      { destruct Hre as [<- | Hre]; [|exact Hre].
        exfalso. apply Ne. now rewrite <- Es, <- Te. }
      destruct (scan_gps_after_start start stop Ne tl r Es Dr Dtl
                  (ex_intro _ re (conj Hre' Te)))
        as (rs' & re' & H1 & H2 & T1 & T2 & Sc).
      exists rs', re', (Some (dist rs')).
      split; [destruct H1 as [-> | H1]; [now left | now right]|].
      split; [now right | auto].
    + apply Qeq_bool_false_iff in Es.
      assert (Hrs' : In rs tl).
      { destruct Hrs as [<- | Hrs]; [contradiction | exact Hrs]. }
      destruct (Qeq_bool (time r) stop) eqn:Et.
      * apply Qeq_bool_iff in Et. exfalso.
        pose proof (ascending_head_le r rs tl A Hrs') as Le.
        rewrite Et, Ts in Le. apply (Qlt_irrefl start).
        now apply Qlt_le_trans with stop.
      * apply Qeq_bool_false_iff in Et.
        assert (Hre' : In re tl).
        { destruct Hre as [<- | Hre]; [contradiction | exact Hre]. }
        destruct (IH sd (ascending_tail _ _ A) Dtl
                    (ex_intro _ rs (conj Hrs' Ts))
                    (ex_intro _ re (conj Hre' Te)))
          as (rs' & re' & sd' & H1 & H2 & T1 & T2 & Sc).
        exists rs', re', sd'.
        split; [now right | split; [now right | auto]].
Qed.

Lemma time_of_record (g : list row) (t : Q) :
  time_of g t -> exists r, In r g /\ time r == t.
Proof.
  unfold time_of. rewrite in_map_iff. intros (r & <- & H).
  exists r. split; [exact H | reflexivity].
Qed.

Lemma lap_turn_of_read_file (g : list row) (start stop : Q) (sd : option cell) :
  ascending g -> Forall has_distance g -> lap_ok g start stop ->
  exists st sd',
    lap_turn g [start; stop] sd = Some (st, sd') /\
    lap_stat_of g [start; stop] st.
Proof.
  intros A D Ok. unfold lap_turn. cbn [nth_error].
  destruct (Qeq_dec start stop) as [E | Ne].
  - destruct (scan_gps_equal_bounds g start stop E sd) as [sd' ->].
    exists [start; stop; stop - start], sd'. split; [reflexivity|].
    exists start, stop. split; [reflexivity | left; now split].
  - destruct Ok as [[-> ->] | (P & Le & Hs & He)];
      [exfalso; apply Ne; reflexivity|].
    assert (Lt : start < stop).
    { destruct (Qlt_le_dec start stop) as [L | G]; [exact L|].
      exfalso. apply Ne. now apply Qle_antisym. }
    destruct (scan_gps_ascending start stop Lt g sd A D
                (time_of_record _ _ Hs) (time_of_record _ _ He))
      as (rs & re & sd' & H1 & H2 & T1 & T2 & ->).
    exists [start; stop; stop - start; cumulative re - cumulative rs], sd'.
    split; [reflexivity|].
    exists start, stop. split; [reflexivity | right].
    split; [exact Lt|]. exists rs, re. auto.
Qed.

Lemma lap_loop_of_read_file (g : list row) :
  ascending g -> Forall has_distance g ->
  forall laps sd,
    Forall (fun l => exists s e, l = [s; e] /\ lap_ok g s e) laps ->
    exists stats,
      lap_loop g laps sd = Some stats /\ Forall2 (lap_stat_of g) laps stats.
Proof.
  intros A D. induction laps as [|l rest IH]; intros sd F.
  - exists []. split; [reflexivity | constructor].
  - inversion F as [|? ? (s & e & -> & Ok) Frest]; subst.
    destruct (lap_turn_of_read_file g s e sd A D Ok) as (st & sd' & Ht & Hst).
    destruct (IH sd' Frest) as (stats & Hl & H2).
    exists (st :: stats). cbn [lap_loop]. rewrite Ht. cbn. rewrite Hl.
    split; [reflexivity | now constructor].
Qed.

Lemma filter_data_gps_lap (data : dataset) :
  gps (fst (filter_data data)) = gps data /\
  lap (fst (filter_data data)) = lap data.
Proof.
  unfold filter_data.
  destruct (filter_list (out_of_range hr 1 254) (hr_s data)) as [h okh].
  destruct okh; simpl; [|auto].
  destruct (filter_list (out_of_range cad 0 254) (cad_s data)) as [c okc].
  destruct okc; simpl; [|auto].
  destruct (filter_list _ (alti_s data)) as [a oka]. auto.
Qed.

Lemma lap_ok_same_times (g g' : list row) (s e : Q) :
  map time g' = map time g -> lap_ok g s e -> lap_ok g' s e.
Proof.
  intros T [H | (P & L & Hs & He)]; [now left | right].
  unfold time_of in *. rewrite T. auto.
Qed.

(** What [prepare] hands to [file_details]. *)
Lemma prepare_shape {M : MathLib} (opts : options) (f : list string)
  (data : dataset) :
  prepare opts f = Some data ->
  ascending (gps data) /\ Forall has_distance (gps data) /\
  Forall (fun l => exists s e, l = [s; e] /\ lap_ok (gps data) s e) (lap data).
Proof.
  unfold prepare. intros H.
  destruct (read_file f) as [d0|] eqn:Er; [|discriminate].
  destruct (read_file_shape f d0 Er) as (A0 & _ & _ & _ & _ & L0).
  set (d1 := if opt_filter opts then fst (filter_data d0) else d0) in *.
  assert (E1 : gps d1 = gps d0 /\ lap d1 = lap d0).
  { unfold d1. destruct (opt_filter opts); [apply filter_data_gps_lap | auto]. }
  destruct E1 as [G1 L1].
  destruct (process_gps_shape d1 data H) as (T & D & _ & _ & _ & El).
  rewrite G1 in T. rewrite L1 in El.
  split; [unfold ascending; rewrite T; exact A0|].
  split; [exact D|].
  rewrite El. eapply Forall_impl; [|exact L0].
  intros l (s & e & -> & Ok). exists s, e.
  split; [reflexivity | now apply (lap_ok_same_times (gps d0))].
Qed.

(** X14.  After [read_file], the optional [filter_data] and [process_gps],
    [calculate_lap_stats] does not exit.  A lap with two different bounds
    gets its duration and the difference of the running distances of a
    record at its stop time and a record at its start time; a lap whose
    bounds are equal gets its duration only. *)
Theorem calculate_lap_stats_after_prepare {M : MathLib} (opts : options)
  (f : list string) (data : dataset) :
  prepare opts f = Some data ->
  exists stats,
    calculate_lap_stats data = Some stats /\
    Forall2 (lap_stat_of (gps data)) (lap data) stats.
Proof.
  intros H. destruct (prepare_shape opts f data H) as (A & D & L).
  apply lap_loop_of_read_file; assumption.
Qed.

(** ** [merge_data]: fields and timestamps *)

(** X15.  After the copy-back loop, a slot of the previous record holds the
    incoming value when that value is neither blank nor zero, and its old
    value otherwise; the time is untouched. *)
Theorem copy_back_slots (entry prev : row) (x : nat) :
  (1 <= x <= 6)%nat ->
  getx x (copy_back entry prev)
  = (if truthy (getx x entry) then getx x entry else getx x prev) /\
  time (copy_back entry prev) = time prev.
Proof.
  intros Hx. split; [|apply copy_back_time].
  unfold copy_back. cbn [seq fold_left].
  assert (C : (x = 1 \/ x = 2 \/ x = 3 \/ x = 4 \/ x = 5 \/ x = 6)%nat) by lia.
  destruct entry as [t la lo al di h c].
  destruct C as [-> | [-> | [-> | [-> | [-> | ->]]]]];
    cbn [getx lat long alti dist hr cad];
    destruct (truthy la), (truthy lo), (truthy al), (truthy di), (truthy h),
      (truthy c); reflexivity.
Qed.

Lemma copy_back_slots_witness :
  getx 5 (copy_back (mkRow 7 Blank Blank Blank Blank (Num 75) (Num 0))
            (mkRow 7 (Num 1) (Num 2) Blank (Num 0) Blank (Num 80)))
  = (if truthy (getx 5 (mkRow 7 Blank Blank Blank Blank (Num 75) (Num 0)))
     then getx 5 (mkRow 7 Blank Blank Blank Blank (Num 75) (Num 0))
     else getx 5 (mkRow 7 (Num 1) (Num 2) Blank (Num 0) Blank (Num 80))) /\
  time (copy_back (mkRow 7 Blank Blank Blank Blank (Num 75) (Num 0))
          (mkRow 7 (Num 1) (Num 2) Blank (Num 0) Blank (Num 80))) = 7.
Proof.
  apply (copy_back_slots (mkRow 7 Blank Blank Blank Blank (Num 75) (Num 0))
           (mkRow 7 (Num 1) (Num 2) Blank (Num 0) Blank (Num 80)) 5).
  lia.
Defined.

Lemma merge_loop_unchanged (data : list row) :
  (forall n a b,
      nth_error data n = Some a -> nth_error data (S n) = Some b ->
      ~ time a == time b) ->
  forall fuel n, merge_loop fuel n data = data.
Proof.
  intros H. induction fuel as [|fuel IH]; intros n; simpl; [reflexivity|].
  destruct (nth_error data n) as [entry|] eqn:En; [|reflexivity].
  assert (T : merge_turn n entry data = data).
  { destruct n as [|m]; simpl; [reflexivity|].
    destruct (nth_error data m) as [prev|] eqn:Ep; [|reflexivity].
    destruct (Qeq_bool (time entry) (time prev)) eqn:E; [|reflexivity].
    apply Qeq_bool_iff in E. exfalso. apply (H m prev entry Ep En).
    now symmetry. }
  rewrite T. apply IH.
Qed.

(** X16.  When no two neighbours of the sorted list carry the same timestamp,
    [merge_data] returns the four streams in one list, stably sorted by
    time, unchanged. *)
Theorem merge_data_without_shared_timestamps (data : dataset) :
  (forall n a b,
      nth_error (sorted_by_time (all_records data)) n = Some a ->
      nth_error (sorted_by_time (all_records data)) (S n) = Some b ->
      ~ time a == time b) ->
  merge_data data = sorted_by_time (all_records data).
Proof.
  intros H. unfold merge_data. now apply merge_loop_unchanged.
Qed.

Lemma list_set_in {A : Type} (m : nat) (v x : A) (l : list A) :
  In x (list_set m v l) -> x = v \/ In x l.
Proof.
  revert m. induction l as [|y tl IH]; intros [|m]; simpl; auto.
  - intros [<- | H]; auto.
  - intros [<- | H]; auto. destruct (IH m H); auto.
Qed.

Lemma nth_error_list_set_same {A : Type} (m : nat) (v p : A) (l : list A) :
  nth_error l m = Some p -> nth_error (list_set m v l) m = Some v.
Proof.
  revert m. induction l as [|y tl IH]; intros [|m] H; simpl in *;
    try discriminate; auto.
Qed.

Lemma nth_error_list_set_other {A : Type} (m k : nat) (v : A) (l : list A) :
  k <> m -> nth_error (list_set m v l) k = nth_error l k.
Proof.
  revert m k. induction l as [|y tl IH]; intros [|m] [|k] H; simpl;
    try reflexivity; try contradiction.
  apply IH. lia.
Qed.

Lemma remove_first_keeps (x r : row) (l : list row) :
  In r l -> row_eqb r x = false -> In r (remove_first x l).
Proof.
  induction l as [|y tl IH]; simpl; [auto|].
  intros [<- | H] E.
  - rewrite E. now left.
  - destruct (row_eqb y x); [exact H | right; auto].
Qed.

Lemma remove_first_one_of_two (x a b : row) :
  forall l i j,
    (i < j)%nat -> nth_error l i = Some a -> nth_error l j = Some b ->
    In a (remove_first x l) \/ In b (remove_first x l).
Proof.
  induction l as [|y tl IH]; intros i j Lt Ha Hb.
  - destruct i; discriminate.
  - destruct j as [|j]; [lia|]. simpl in Hb. simpl.
    destruct (row_eqb y x).
    + right. eapply nth_error_In; eauto.
    + destruct i as [|i].
      * simpl in Ha. injection Ha as <-. left. now left.
      * simpl in Ha. destruct (IH i j ltac:(lia) Ha Hb); [left | right];
          now right.
Qed.

Lemma row_eqb_time (a b : row) : row_eqb a b = true -> time a == time b.
Proof.
  unfold row_eqb. rewrite !andb_true_iff. intros [[[[[[H _] _] _] _] _] _].
  now apply Qeq_bool_iff.
Qed.

Lemma merge_turn_has_time (n : nat) (entry : row) (data : list row) (t : Q) :
  nth_error data n = Some entry ->
  (has_time (merge_turn n entry data) t <-> has_time data t).
Proof.
  intros En. destruct n as [|m]; simpl; [tauto|].
  destruct (nth_error data m) as [prev|] eqn:Ep; [|tauto].
  destruct (Qeq_bool (time entry) (time prev)) eqn:E; [|tauto].
  apply Qeq_bool_iff in E.
  set (prev' := copy_back entry prev).
  assert (Tp : time prev' = time prev) by apply copy_back_time.
  split.
  - intros (r & Hr & Tr). apply remove_first_in in Hr.
    apply list_set_in in Hr. destruct Hr as [-> | Hr].
    + exists prev. split; [eapply nth_error_In; eauto | now rewrite <- Tp].
    + now exists r.
  - intros (r & Hr & Tr).
    destruct (Qeq_dec t (time entry)) as [Et | Nt].
    + assert (Hm : nth_error (list_set m prev' data) m = Some prev')
        by (eapply nth_error_list_set_same; eauto).
      assert (Hn : nth_error (list_set m prev' data) (S m) = Some entry)
        by (rewrite nth_error_list_set_other by lia; exact En).
      destruct (remove_first_one_of_two entry prev' entry _ m (S m)
                  ltac:(lia) Hm Hn) as [H | H].
      * exists prev'. split; [exact H|]. rewrite Tp, <- E. now symmetry.
      * exists entry. split; [exact H | now symmetry].
    + exists r. split; [|exact Tr].
      apply remove_first_keeps.
      * apply In_nth_error in Hr. destruct Hr as [k Hk].
        assert (k <> m).
        { intros ->. rewrite Ep in Hk. injection Hk as <-.
          apply Nt. now rewrite <- Tr, E. }
        apply nth_error_In with k.
        now rewrite nth_error_list_set_other.
      * destruct (row_eqb r entry) eqn:B; [|reflexivity].
        apply row_eqb_time in B. exfalso. apply Nt. now rewrite <- Tr.
Qed.

Lemma merge_loop_has_time (t : Q) :
  forall fuel n data,
    has_time (merge_loop fuel n data) t <-> has_time data t.
Proof.
  induction fuel as [|fuel IH]; intros n data; simpl; [tauto|].
  destruct (nth_error data n) as [entry|] eqn:En; [|tauto].
  rewrite IH. now apply merge_turn_has_time.
Qed.

(** X17.  [merge_data] neither loses nor invents a timestamp: a time is
    carried by a merged record exactly when it is carried by a record of
    one of the four streams. *)
Theorem merge_data_keeps_timestamps (data : dataset) (t : Q) :
  has_time (merge_data data) t <-> has_time (all_records data) t.
Proof.
  unfold merge_data. fold (all_records data). rewrite merge_loop_has_time.
  unfold has_time. split; intros (r & Hr & Tr); exists r; split; auto;
    now apply sorted_by_time_in_iff.
Qed.

(** ** [file_details] and [main]: when a file is written *)

Lemma merge_data_nil_iff (data : dataset) :
  merge_data data = [] <-> all_records data = [].
Proof.
  split.
  - intros E. destruct (all_records data) as [|r tl] eqn:A; [reflexivity|].
    exfalso.
    assert (H : has_time (merge_data data) (time r)).
    { apply merge_loop_has_time. exists r. split; [|reflexivity].
      apply sorted_by_time_in_iff. fold (all_records data). rewrite A.
      now left. }
    rewrite E in H. destruct H as (x & [] & _).
  - intros E. unfold merge_data. fold (all_records data). now rewrite E.
Qed.

Lemma last_in {A : Type} (x : A) (l : list A) (d : A) : In (last (x :: l) d) (x :: l).
Proof.
  revert x. induction l as [|y tl IH]; intros x; [now left|].
  right. apply IH.
Qed.

Lemma file_details_after_prepare {M : MathLib} (opts : options)
  (f : list string) (data : dataset) :
  prepare opts f = Some data ->
  exists stats,
    calculate_lap_stats data = Some stats /\
    Forall2 (lap_stat_of (gps data)) (lap data) stats /\
    file_details data
    = match all_records data with
      | [] => None
      | _ => Some (merge_data data, stats)
      end.
Proof.
  intros H. destruct (prepare_shape opts f data H) as (A & D & L).
  destruct (lap_loop_of_read_file (gps data) A D (lap data) None L)
    as (stats & Hs & H2).
  change (calculate_lap_stats data = Some stats) in Hs.
  exists stats. split; [exact Hs|]. split; [exact H2|].
  unfold file_details.
  assert (Dist : match gps data with
                 | [] => Some 0
                 | _ => float_cell (dist (last (gps data)
                                           (mkRow 0 Blank Blank Blank Blank Blank Blank)))
                 end <> None).
  { destruct (gps data) as [|r tl] eqn:G; [discriminate|].
    rewrite Forall_forall in D.
    destruct (D _ (last_in r tl (mkRow 0 Blank Blank Blank Blank Blank Blank)))
      as [q ->].
    discriminate. }
  destruct (match gps data with [] => Some 0 | _ => _ end) as [distance|];
    [|contradiction].
  rewrite Hs.
  destruct (all_records data) as [|r tl] eqn:E.
  - apply merge_data_nil_iff in E. now rewrite E.
  - destruct (merge_data data) as [|m ms] eqn:Em; [|reflexivity].
    apply merge_data_nil_iff in Em. congruence.
Qed.


(** X19.  A file in which no line starts with one of the four tags (an empty
    file among them) makes [main] exit without writing anything. *)
Theorem main_on_file_without_tagged_lines {M : MathLib} (input_file : string)
  (opts : options) (f : list string) (fs : filesystem) :
  Forall (fun line => recognised line = false) f ->
  main input_file opts f fs = Exited fs.
Proof.
  intros H.
  assert (E : filter recognised f = []).
  { induction H as [|line rest Hl _ IH]; simpl; [reflexivity|].
    now rewrite Hl. }
  assert (R : read_file f = Some (mkData [] [] [] [] [])).
  { unfold read_file. rewrite read_lines_filter_recognised, E. reflexivity. }
  unfold main, prepare. rewrite R. now destruct (opt_filter opts).
Qed.

Lemma main_on_file_without_tagged_lines_witness :
  @main sample_math "run" (mkOptions true false "Running")
    ["HiTrack export"; ""; "tp=p-m;k=1;v=2;"] [] = Exited [].
Proof.
  apply (@main_on_file_without_tagged_lines sample_math).
  repeat constructor.
Defined.

(** ** [generate_xml]: when it reports [OKAY] *)

(** ** [generate_xml]: when it reports [OKAY] *)

Lemma ok_ret {A : Type} (x : A) : always_ok (ret x).
Proof. intros t. now exists x, t. Qed.

Lemma ok_bind {A B : Type} (m : build A) (k : A -> build B) :
  always_ok m -> (forall x, always_ok (k x)) -> always_ok (bind m k).
Proof.
  intros Hm Hk t. unfold bind. destruct (Hm t) as (x & t' & ->). apply Hk.
Qed.

Lemma raises_bind_l {A B : Type} (m : build A) (k : A -> build B) :
  always_raises m -> always_raises (bind m k).
Proof.
  intros Hm t. unfold bind. destruct (Hm t) as (t' & ->). now exists t'.
Qed.

Lemma raises_bind_r {A B : Type} (m : build A) (k : A -> build B) :
  always_ok m -> (forall x, always_raises (k x)) -> always_raises (bind m k).
Proof.
  intros Hm Hk t. unfold bind. destruct (Hm t) as (x & t' & ->). apply Hk.
Qed.

Lemma ok_Element (tg : string) : always_ok (Element tg).
Proof. intros t. unfold Element. eauto. Qed.

Lemma ok_SubElement (p : nat) (tg : string) : always_ok (SubElement p tg).
Proof. intros t. unfold SubElement. eauto. Qed.

Lemma ok_set (e : nat) (k : string) (v : text) : always_ok (set e k v).
Proof. intros t. unfold set. eauto. Qed.

Lemma ok_set_text (e : nat) (v : text) : always_ok (set_text e v).
Proof. intros t. unfold set_text. eauto. Qed.

Lemma ok_leaf (p : nat) (tg : string) (v : text) : always_ok (leaf p tg v).
Proof.
  unfold leaf. apply ok_bind; [apply ok_SubElement | intros; apply ok_set_text].
Qed.

Lemma ok_lift {A : Type} (x : A) : always_ok (lift (Some x)).
Proof. intros t. unfold lift. eauto. Qed.

Lemma raises_lift {A : Type} : always_raises (@lift A None).
Proof. intros t. unfold lift. eauto. Qed.

Lemma bind_lift_some {A B : Type} (v : A) (k : A -> build B) (t : tree) :
  bind (lift (Some v)) k t = k v t.
Proof. reflexivity. Qed.

Lemma raises_bind_lift {A B : Type} (v : A) (k : A -> build B) :
  always_raises (k v) -> always_raises (bind (lift (Some v)) k).
Proof. intros H t. rewrite bind_lift_some. apply H. Qed.

Lemma ok_bind_lift {A B : Type} (v : A) (k : A -> build B) :
  always_ok (k v) -> always_ok (bind (lift (Some v)) k).
Proof. intros H t. rewrite bind_lift_some. apply H. Qed.

Lemma ok_when (c : bool) (m : build unit) : always_ok m -> always_ok (when c m).
Proof. intros H. destruct c; [exact H | apply ok_ret]. Qed.

Lemma ok_for_each {A : Type} (l : list A) (body : A -> build unit) :
  (forall x, In x l -> always_ok (body x)) -> always_ok (for_each l body).
Proof.
  induction l as [|x tl IH]; intros H; simpl; [apply ok_ret|].
  apply ok_bind; [apply H; now left|].
  intros _. apply IH. intros y Hy. apply H. now right.
Qed.

Lemma raises_for_each {A : Type} (l : list A) (body : A -> build unit) :
  (forall x, In x l -> always_ok (body x) \/ always_raises (body x)) ->
  (exists x, In x l /\ always_raises (body x)) ->
  always_raises (for_each l body).
Proof.
  induction l as [|x tl IH]; intros D (y & Hy & Ry); [contradiction|].
  simpl. destruct (D x (or_introl eq_refl)) as [Ox | Rx].
  - apply raises_bind_r; [exact Ox|]. intros _. apply IH.
    + intros z Hz. apply D. now right.
    + destruct Hy as [<- | Hy].
      * exfalso. destruct (Ox []) as (u & t' & E1).
        destruct (Ry []) as (t'' & E2). congruence.
      * now exists y.
  - now apply raises_bind_l.
Qed.

Ltac ok_step :=
  lazymatch goal with
  | |- always_ok (bind (lift (Some _)) _) => apply ok_bind_lift
  | |- always_ok (bind _ _) => apply ok_bind; [|intros ?]
  | |- always_ok (ret _) => apply ok_ret
  | |- always_ok (leaf _ _ _) => apply ok_leaf
  | |- always_ok (set _ _ _) => apply ok_set
  | |- always_ok (set_text _ _) => apply ok_set_text
  | |- always_ok (SubElement _ _) => apply ok_SubElement
  | |- always_ok (Element _) => apply ok_Element
  | |- always_ok (lift (Some _)) => apply ok_lift
  | |- always_ok (when _ _) => apply ok_when
  | |- always_ok (version_block _ _ _ _ _) => unfold version_block
  end.

Ltac ok_steps := repeat ok_step.

Lemma ok_trackpoint (Track : nat) (stats : list Q) (opts : options) (line : row) :
  (2 <= List.length stats)%nat -> always_ok (trackpoint Track stats opts line).
Proof.
  intros H. destruct stats as [|s0 [|s1 rest]]; simpl in H; try lia.
  unfold trackpoint. cbn [nth_error].
  apply ok_bind; [apply ok_lift | intros ?].
  destruct (negb (Qle_bool _ (time line))); [apply ok_ret|].
  apply ok_bind; [apply ok_lift | intros ?].
  destruct (negb (Qle_bool (time line) _)); [apply ok_ret|].
  ok_steps.
  destruct (opt_sport opts =? "Biking"); [apply ok_leaf|].
  destruct (opt_sport opts =? "Running"); ok_steps.
Qed.

Lemma ok_lap_element (Activity : nat) (data : list row) (opts : options)
  (stats : list Q) :
  (4 <= List.length stats)%nat ->
  always_ok (lap_element Activity data opts stats).
Proof.
  intros H.
  destruct stats as [|s0 [|s1 [|s2 [|s3 rest]]]] eqn:E; simpl in H; try lia.
  unfold lap_element. cbn [nth_error]. ok_steps.
  apply ok_for_each. intros line _. apply ok_trackpoint. simpl. lia.
Qed.

Lemma raises_lap_element (Activity : nat) (data : list row) (opts : options)
  (stats : list Q) :
  (List.length stats < 4)%nat ->
  always_raises (lap_element Activity data opts stats).
Proof.
  intros H. unfold lap_element.
  apply raises_bind_r; [apply ok_SubElement | intros Lap].
  destruct stats as [|s0 [|s1 [|s2 [|s3 rest]]]]; cbn [nth_error];
    try (simpl in H; lia).
  - apply raises_bind_l, raises_lift.
  - apply raises_bind_r; [apply ok_lift | intros ?].
    apply raises_bind_r; [apply ok_set | intros ?].
    apply raises_bind_r; [apply ok_SubElement | intros ?].
    apply raises_bind_l, raises_lift.
  - apply raises_bind_r; [apply ok_lift | intros ?].
    apply raises_bind_r; [apply ok_set | intros ?].
    apply raises_bind_r; [apply ok_SubElement | intros ?].
    apply raises_bind_l, raises_lift.
  - apply raises_bind_r; [apply ok_lift | intros ?].
    apply raises_bind_r; [apply ok_set | intros ?].
    apply raises_bind_r; [apply ok_SubElement | intros ?].
    apply raises_bind_r; [apply ok_lift | intros ?].
    apply raises_bind_r; [apply ok_set_text | intros ?].
    apply raises_bind_r; [apply ok_SubElement | intros ?].
    apply raises_bind_l, raises_lift.
Qed.

Lemma generate_xml_flag (data : list row) (lap_stats : list (list Q))
  (opts : options) :
  (always_ok (generate_xml_body data lap_stats opts) ->
   snd (generate_xml data lap_stats opts) = true) /\
  (always_raises (generate_xml_body data lap_stats opts) ->
   snd (generate_xml data lap_stats opts) = false).
Proof.
  unfold generate_xml. split; intros H.
  - destruct (H []) as (x & t' & ->). reflexivity.
  - destruct (H []) as (t' & ->). reflexivity.
Qed.

Lemma raises_prefix (opts : options)
  (k : nat -> nat -> nat -> nat -> build unit) :
  (forall a b c d, always_raises (k a b c d)) ->
  always_raises
    (TrainingCenterDatabase <~ Element "TrainingCenterDatabase" ;;
     set TrainingCenterDatabase "xsi:schemaLocation"
       (Str "http://www.garmin.com/xmlschemas/TrainingCenterDatabase/v2 http://www.garmin.com/xmlschemas/TrainingCenterDatabasev2.xsd") ;;;
     set TrainingCenterDatabase "xmlns"
       (Str "http://www.garmin.com/xmlschemas/TrainingCenterDatabase/v2") ;;;
     set TrainingCenterDatabase "xmlns:xsd"
       (Str "http://www.w3.org/2001/XMLSchema") ;;;
     set TrainingCenterDatabase "xmlns:xsi"
       (Str "http://www.w3.org/2001/XMLSchema-instance") ;;;
     set TrainingCenterDatabase "xmlns:ns3"
       (Str "http://www.garmin.com/xmlschemas/ActivityExtension/v2") ;;;
     Activities <~ SubElement TrainingCenterDatabase "Activities" ;;
     Activity <~ SubElement Activities "Activity" ;;
     set Activity "Sport" (Str (opt_sport opts)) ;;;
     Id <~ SubElement Activity "Id" ;;
     k TrainingCenterDatabase Activities Activity Id).
Proof.
  intros Hk.
  repeat (apply raises_bind_r;
          [first [apply ok_Element | apply ok_set | apply ok_SubElement]
          | intros ?]).
  apply Hk.
Qed.

Lemma generate_xml_body_ok (data : list row) (lap_stats : list (list Q))
  (opts : options) :
  lap_stats <> [] ->
  Forall (fun stats => (4 <= List.length stats)%nat) lap_stats ->
  always_ok (generate_xml_body data lap_stats opts).
Proof.
  intros Ne F.
  destruct lap_stats as [|first_lap rest]; [contradiction|].
  assert (F1 : (4 <= List.length first_lap)%nat) by now inversion F.
  destruct first_lap as [|s0 fl]; [simpl in F1; lia|].
  unfold generate_xml_body. cbn [nth_error].
  ok_steps.
  apply ok_for_each. intros stats Hin. apply ok_lap_element.
  rewrite Forall_forall in F. now apply F.
Qed.

Lemma generate_xml_body_raises (data : list row) (lap_stats : list (list Q))
  (opts : options) :
  lap_stats = [] \/
  (exists stats, In stats lap_stats /\ (List.length stats < 4)%nat) ->
  always_raises (generate_xml_body data lap_stats opts).
Proof.
  intros H. unfold generate_xml_body. apply raises_prefix.
  intros a b Activity Id.
  destruct lap_stats as [|first_lap rest]; cbn [nth_error].
  - apply raises_bind_l, raises_lift.
  - destruct H as [H | (stats & Hin & G)]; [discriminate|].
    apply raises_bind_lift.
    destruct first_lap as [|s0 fl]; cbn [nth_error].
    + apply raises_bind_l. apply raises_lift.
    + apply raises_bind_lift.
      apply raises_bind_r; [apply ok_set_text | intros ?].
      apply raises_bind_l.
      apply raises_for_each.
      * intros st _. destruct (le_lt_dec 4 (List.length st)).
        -- left. now apply ok_lap_element.
        -- right. now apply raises_lap_element.
      * exists stats. split; [exact Hin | now apply raises_lap_element].
Qed.

Lemma short_lap_dec (lap_stats : list (list Q)) :
  Forall (fun stats => (4 <= List.length stats)%nat) lap_stats \/
  exists stats, In stats lap_stats /\ (List.length stats < 4)%nat.
Proof.
  induction lap_stats as [|x tl IH]; [left; constructor|].
  destruct (le_lt_dec 4 (List.length x)) as [L | G].
  - destruct IH as [F | (st & Hin & Hs)].
    + left. now constructor.
    + right. exists st. split; [now right | exact Hs].
  - right. exists x. split; [now left | exact G].
Qed.


Lemma lap_stat_of_length (g : list row) (l st : list Q) :
  lap_stat_of g l st ->
  ((4 <= List.length st)%nat <-> exists s e, l = [s; e] /\ s < e).
Proof.
  intros (s & e & -> & [[E ->] | (Lt & rs & re & _ & _ & _ & _ & ->)]).
  - split; [simpl; lia|].
    intros (s' & e' & Hl & Lt). injection Hl as <- <-.
    rewrite E in Lt. now apply Qlt_irrefl in Lt.
  - split; [|simpl; lia]. intros _. now exists s, e.
Qed.

(** X21.  For the data that [read_file], the optional [filter_data] and
    [process_gps] hand on, the document comes out complete ([OKAY]) exactly
    when the file has at least one lap and every lap spans two different
    times: a pause line with no position since the previous pause, or a lap
    of a single position, leaves [generate_xml] with [FAILED]. *)
Theorem generate_xml_after_prepare {M : MathLib} (opts : options)
  (f : list string) (data : dataset) :
  prepare opts f = Some data ->
  exists stats,
    calculate_lap_stats data = Some stats /\
    (snd (generate_xml (merge_data data) stats opts) = true <->
     lap data <> [] /\
     Forall (fun l => exists start stop, l = [start; stop] /\ start < stop)
       (lap data)).
Proof.
  intros H.
  destruct (file_details_after_prepare opts f data H) as (stats & Hs & F2 & _).
  exists stats. split; [exact Hs|].
  destruct (generate_xml_flag (merge_data data) stats opts) as [Hok Hko].
  assert (Len : Forall (fun stats => (4 <= List.length stats)%nat) stats <->
                Forall (fun l => exists s e, l = [s; e] /\ s < e) (lap data)).
  { clear - F2. induction F2 as [|l st ls sts H1 _ IH].
    - split; constructor.
    - apply lap_stat_of_length in H1. split; intros F; inversion F; subst;
        constructor; tauto. }
  assert (Nil : stats = [] <-> lap data = []).
  { clear - F2. destruct F2; split; congruence. }
  split.
  - intros Ok.
    assert (N : stats <> []).
    { intros ->. rewrite Hko in Ok; [discriminate|].
      apply generate_xml_body_raises. now left. }
    split; [tauto|]. apply Len.
    destruct (short_lap_dec stats) as [F | S]; [exact F|].
    rewrite Hko in Ok; [discriminate|].
    apply generate_xml_body_raises. now right.
  - intros [Ne F]. apply Hok.
    apply generate_xml_body_ok; [tauto | now apply Len].
Qed.

(** ** [parse_arguments] *)

Lemma substring_whole (s : string) :
  forall n, (String.length s <= n)%nat -> substring 0 n s = s.
Proof.
  induction s as [|c s IH]; intros [|n] H; simpl in *; try reflexivity;
    try lia.
  f_equal. apply IH. lia.
Qed.

Lemma dot_backslash_prefix (a : string) :
  substring 0 2 a = ".\" ->
  a = (".\" ++ substring 2 (String.length a) a)%string.
Proof.
  destruct a as [|c1 [|c2 rest]]; simpl; try discriminate.
  intros H. injection H as -> -> _.
  f_equal. f_equal. symmetry. apply substring_whole. lia.
Qed.

(** What one argument does to the state, when the program goes on. *)
Lemma parse_argument_cases (file : string) (opts : options) (a : string)
  (file' : string) (opts' : options) :
  parse_argument (file, opts) a = Some (file', opts') ->
  (a = "-f" /\ file' = file /\
   opts' = mkOptions false (opt_validate opts) (opt_sport opts)) \/
  (a = "-v" /\ file' = file /\
   opts' = mkOptions (opt_filter opts) true (opt_sport opts)) \/
  (a = "-b" /\ file' = file /\
   opts' = mkOptions (opt_filter opts) (opt_validate opts) "Biking") \/
  (a = "-s" /\ file' = file /\
   opts' = mkOptions (opt_filter opts) (opt_validate opts) "Swimming") \/
  (a <> "-f" /\ a <> "-v" /\ a <> "-b" /\ a <> "-s" /\
   file = "" /\ opts' = opts /\ (a = file' \/ a = (".\" ++ file')%string)).
Proof.
  unfold parse_argument.
  destruct (a =? "-f") eqn:Ef.
  { apply String.eqb_eq in Ef. intros H. injection H as <- <-. auto. }
  destruct (a =? "-v") eqn:Ev.
  { apply String.eqb_eq in Ev. intros H. injection H as <- <-. auto 6. }
  destruct (a =? "-b") eqn:Eb.
  { apply String.eqb_eq in Eb. intros H. injection H as <- <-. auto 7. }
  destruct (a =? "-s") eqn:Es.
  { apply String.eqb_eq in Es. intros H. injection H as <- <-. auto 8. }
  apply String.eqb_neq in Ef, Ev, Eb, Es.
  destruct a as [|c rest] eqn:Ea; [discriminate|].
  destruct (Ascii.eqb c "-"); [discriminate|].
  rewrite <- Ea in *.
  destruct (substring 0 2 a =? ".\") eqn:Ed.
  - apply String.eqb_eq in Ed.
    destruct (file =? "") eqn:E0; [|discriminate].
    apply String.eqb_eq in E0. intros H. injection H as <- <-.
    do 4 right. repeat split; auto. right. now apply dot_backslash_prefix.
  - destruct (file =? "") eqn:E0; [|discriminate].
    apply String.eqb_eq in E0. intros H. injection H as <- <-.
    do 4 right. repeat split; auto.
Qed.

Lemma parse_loop_result :
  forall argv file opts file' opts',
    parse_loop (file, opts) argv = Some (file', opts') ->
    opt_filter opts' = opt_filter opts && negb (existsb (String.eqb "-f") argv) /\
    opt_validate opts' = opt_validate opts || existsb (String.eqb "-v") argv /\
    (~ In "-b" argv -> ~ In "-s" argv -> opt_sport opts' = opt_sport opts) /\
    (In "-b" argv -> ~ In "-s" argv -> opt_sport opts' = "Biking") /\
    (In "-s" argv -> ~ In "-b" argv -> opt_sport opts' = "Swimming") /\
    (file' = file \/ In file' argv \/ In (".\" ++ file')%string argv).
Proof.
  induction argv as [|a rest IH]; intros file opts file' opts' H.
  - simpl in H. injection H as <- <-. simpl.
    rewrite andb_true_r, orb_false_r. tauto.
  - cbn [parse_loop] in H.
    destruct (parse_argument (file, opts) a) as [[f1 o1]|] eqn:Ha;
      [|discriminate].
    destruct (IH _ _ _ _ H) as (F & V & S0 & Sb & Ss & N).
    cbn [existsb In].
    apply parse_argument_cases in Ha.
    destruct Ha as [(-> & -> & ->) | [(-> & -> & ->) | [(-> & -> & ->) |
                   [(-> & -> & ->) | (Nf & Nv & Nb & Ns & -> & -> & Hn)]]]];
      cbn [opt_filter opt_validate opt_sport] in *.
    + rewrite F, V. cbn. rewrite andb_false_r.
      split; [reflexivity|]. split; [reflexivity|].
      split; [intros H1 H2; apply S0; tauto|].
      split; [intros [H1 | H1] H2; [discriminate | apply Sb; tauto]|].
      split; [intros [H1 | H1] H2; [discriminate | apply Ss; tauto]|].
      tauto.
    + rewrite F, V. cbn. rewrite orb_true_r.
      split; [reflexivity|]. split; [reflexivity|].
      split; [intros H1 H2; apply S0; tauto|].
      split; [intros [H1 | H1] H2; [discriminate | apply Sb; tauto]|].
      split; [intros [H1 | H1] H2; [discriminate | apply Ss; tauto]|].
      tauto.
    + rewrite F, V. cbn.
      split; [reflexivity|]. split; [reflexivity|].
      split; [intros H1 H2; exfalso; apply H1; now left|].
      split.
      { intros _ H2. destruct (in_dec string_dec "-b" rest) as [I | I].
        - apply Sb; tauto.
        - apply S0; tauto. }
      split; [intros H1 H2; exfalso; apply H2; now left|].
      tauto.
    + rewrite F, V. cbn.
      split; [reflexivity|]. split; [reflexivity|].
      split; [intros H1 H2; exfalso; apply H2; now left|].
      split; [intros H1 H2; exfalso; apply H2; now left|].
      split.
      { intros _ H2. destruct (in_dec string_dec "-s" rest) as [I | I].
        - apply Ss; tauto.
        - apply S0; tauto. }
      tauto.
    + assert (Ef : ("-f" =? a) = false) by (apply String.eqb_neq; congruence).
      assert (Ev : ("-v" =? a) = false) by (apply String.eqb_neq; congruence).
      rewrite F, V, Ef, Ev. cbn.
      split; [reflexivity|]. split; [reflexivity|].
      split; [intros H1 H2; apply S0; tauto|].
      split; [intros [H1 | H1] H2; [congruence | apply Sb; tauto]|].
      split; [intros [H1 | H1] H2; [congruence | apply Ss; tauto]|].
      destruct N as [-> | [N | N]]; [|tauto|tauto].
      destruct Hn as [-> | ->]; tauto.
Qed.

(** X22.  When [parse_arguments] returns, the file name is not empty and is
    one of the arguments, as given or without a leading [.\]; filtering is
    on unless [-f] was given, validation is on exactly when [-v] was given,
    and the sport is Running with neither [-b] nor [-s], Biking with [-b]
    only and Swimming with [-s] only. *)
Theorem parse_arguments_result (argv : list string) (input_file : string)
  (opts : options) :
  parse_arguments argv = Some (input_file, opts) ->
  input_file <> "" /\
  (In input_file argv \/ In (".\" ++ input_file)%string argv) /\
  opt_filter opts = negb (existsb (String.eqb "-f") argv) /\
  opt_validate opts = existsb (String.eqb "-v") argv /\
  (~ In "-b" argv -> ~ In "-s" argv -> opt_sport opts = "Running") /\
  (In "-b" argv -> ~ In "-s" argv -> opt_sport opts = "Biking") /\
  (In "-s" argv -> ~ In "-b" argv -> opt_sport opts = "Swimming").
Proof.
  unfold parse_arguments. intros H.
  destruct (parse_loop ("", mkOptions true false "Running") argv)
    as [[f1 o1]|] eqn:L; [|discriminate].
  cbn [fst] in H. destruct (f1 =? "") eqn:E; [discriminate|].
  injection H as <- <-. apply String.eqb_neq in E.
  destruct (parse_loop_result _ _ _ _ _ L) as (F & V & S0 & Sb & Ss & N).
  cbn in F, V, S0.
  repeat split; auto.
  destruct N as [-> | N]; [contradiction | exact N].
Qed.

Lemma parse_arguments_result_witness :
  "run1.txt" <> "" /\
  (In "run1.txt" ["-v"; ".\run1.txt"; "-b"] \/
   In (".\" ++ "run1.txt")%string ["-v"; ".\run1.txt"; "-b"]) /\
  opt_filter (mkOptions true true "Biking")
  = negb (existsb (String.eqb "-f") ["-v"; ".\run1.txt"; "-b"]) /\
  opt_validate (mkOptions true true "Biking")
  = existsb (String.eqb "-v") ["-v"; ".\run1.txt"; "-b"] /\
  (~ In "-b" ["-v"; ".\run1.txt"; "-b"] -> ~ In "-s" ["-v"; ".\run1.txt"; "-b"] ->
   opt_sport (mkOptions true true "Biking") = "Running") /\
  (In "-b" ["-v"; ".\run1.txt"; "-b"] -> ~ In "-s" ["-v"; ".\run1.txt"; "-b"] ->
   opt_sport (mkOptions true true "Biking") = "Biking") /\
  (In "-s" ["-v"; ".\run1.txt"; "-b"] -> ~ In "-b" ["-v"; ".\run1.txt"; "-b"] ->
   opt_sport (mkOptions true true "Biking") = "Swimming").
Proof.
  apply (parse_arguments_result ["-v"; ".\run1.txt"; "-b"] "run1.txt"
           (mkOptions true true "Biking")).
  vm_compute. reflexivity.
Defined.

Lemma parse_loop_stops (a : string) :
  (forall st, parse_argument st a = None) ->
  forall argv st, In a argv -> parse_loop st argv = None.
Proof.
  intros Ha. induction argv as [|x rest IH]; intros st Hin; [contradiction|].
  cbn [parse_loop]. destruct Hin as [-> | Hin].
  - now rewrite Ha.
  - destruct (parse_argument st x); [now apply IH | reflexivity].
Qed.

(** X23.  An argument that starts with a dash and is none of [-f], [-v],
    [-b], [-s], or an empty argument, ends the program wherever it stands
    on the command line. *)
Theorem parse_arguments_rejects (argv : list string) (a : string) :
  In a argv ->
  a <> "-f" -> a <> "-v" -> a <> "-b" -> a <> "-s" ->
  a = "" \/ substring 0 1 a = "-" ->
  parse_arguments argv = None.
Proof.
  intros Hin Nf Nv Nb Ns Hd. unfold parse_arguments.
  rewrite (parse_loop_stops a); [reflexivity | | exact Hin].
  intros [file opts]. unfold parse_argument.
  apply String.eqb_neq in Nf, Nv, Nb, Ns. rewrite Nf, Nv, Nb, Ns.
  destruct Hd as [-> | Hd]; [reflexivity|].
  destruct a as [|c rest]; [reflexivity|].
  simpl in Hd. destruct rest; injection Hd as ->; reflexivity.
Qed.

Lemma parse_arguments_rejects_witness :
  parse_arguments ["run1.txt"; "-x"; "-v"] = None.
Proof.
  apply (parse_arguments_rejects ["run1.txt"; "-x"; "-v"] "-x");
    try discriminate.
  - simpl. auto.
  - right. reflexivity.
Defined.

Lemma parse_loop_keeps_file :
  forall argv file opts file' opts',
    file <> "" ->
    parse_loop (file, opts) argv = Some (file', opts') ->
    file' = file /\
    Forall (fun a => a = "-f" \/ a = "-v" \/ a = "-b" \/ a = "-s") argv.
Proof.
  induction argv as [|a rest IH]; intros file opts file' opts' Ne H.
  - simpl in H. injection H as <- <-. split; [reflexivity | constructor].
  - cbn [parse_loop] in H.
    destruct (parse_argument (file, opts) a) as [[f1 o1]|] eqn:Ha;
      [|discriminate].
    apply parse_argument_cases in Ha.
    destruct Ha as [(-> & -> & _) | [(-> & -> & _) | [(-> & -> & _) |
                   [(-> & -> & _) | (_ & _ & _ & _ & E & _)]]]];
      try contradiction;
      destruct (IH _ _ _ _ Ne H) as [-> F]; split; auto.
Qed.

(** X24.  [parse_arguments] accepts at most one file name: once a name is
    set, every later argument of an accepted command line is one of the
    four options. *)
Theorem parse_arguments_one_file (before after : list string)
  (name input_file : string) (opts : options) :
  name <> "" -> name <> "-f" -> name <> "-v" -> name <> "-b" -> name <> "-s" ->
  substring 0 2 name <> ".\" ->
  parse_arguments (before ++ name :: after) = Some (input_file, opts) ->
  input_file = name /\
  Forall (fun a => a = "-f" \/ a = "-v" \/ a = "-b" \/ a = "-s") after.
Proof.
  intros N0 Nf Nv Nb Ns Nd. unfold parse_arguments. intros H.
  destruct (parse_loop ("", mkOptions true false "Running")
              (before ++ name :: after)) as [[f1 o1]|] eqn:L; [|discriminate].
  cbn [fst] in H. destruct (f1 =? ""); [discriminate|].
  injection H as <- <-.
  revert L. generalize ("", mkOptions true false "Running").
  induction before as [|b rest IH]; intros st L.
  - cbn [app parse_loop] in L.
    destruct (parse_argument st name) as [[f2 o2]|] eqn:Ha; [|discriminate].
    destruct st as [f0 o0]. apply parse_argument_cases in Ha.
    destruct Ha as [(E & _) | [(E & _) | [(E & _) | [(E & _) |
                   (_ & _ & _ & _ & _ & _ & [E | E])]]]];
      try contradiction.
    + subst f2. exact (parse_loop_keeps_file after name o2 f1 o1 N0 L).
    + exfalso. apply Nd. rewrite E. destruct f2; reflexivity.
  - cbn [app parse_loop] in L.
    destruct (parse_argument st b) as [st'|]; [|discriminate].
    now apply (IH st').
Qed.

Lemma parse_arguments_one_file_witness :
  "run1.txt" = "run1.txt" /\
  Forall (fun a => a = "-f" \/ a = "-v" \/ a = "-b" \/ a = "-s") ["-s"; "-f"].
Proof.
  apply (parse_arguments_one_file ["-v"] ["-s"; "-f"] "run1.txt" "run1.txt"
           (mkOptions false true "Swimming")); try discriminate.
  vm_compute. reflexivity.
Defined.

Lemma parse_loop_options_only :
  forall argv file opts,
    Forall (fun a => a = "-f" \/ a = "-v" \/ a = "-b" \/ a = "-s") argv ->
    exists opts', parse_loop (file, opts) argv = Some (file, opts').
Proof.
  induction argv as [|a rest IH]; intros file opts F.
  - now exists opts.
  - inversion F as [|? ? Ha Hrest]; subst. cbn [parse_loop].
    destruct Ha as [-> | [-> | [-> | ->]]]; cbn; now apply IH.
Qed.

(** X25.  A command line made of options only, the empty one among them,
    names no file and ends the program. *)
Theorem parse_arguments_needs_file (argv : list string) :
  Forall (fun a => a = "-f" \/ a = "-v" \/ a = "-b" \/ a = "-s") argv ->
  parse_arguments argv = None.
Proof.
  intros F. unfold parse_arguments.
  destruct (parse_loop_options_only argv "" (mkOptions true false "Running") F)
    as [opts' ->].
  reflexivity.
Qed.

Lemma parse_arguments_needs_file_witness :
  parse_arguments ["-v"; "-b"] = None.
Proof.
  apply (parse_arguments_needs_file ["-v"; "-b"]).
  constructor; [right; left; reflexivity|].
  constructor; [right; right; left; reflexivity | constructor].
Defined.

(** ** [process_gps] on a track that does not move *)

Section Stationary.
Context {M : MathLib}.




End Stationary.

(** ** [read_file]: how many laps *)

Lemma location_record_lap_count (st st' : reader) (t la lo : Q) :
  location_record st t la lo = Some st' ->
  List.length (lap (r_data st'))
  = (List.length (lap (r_data st))
     + if is_position t la lo then 0 else 1)%nat.
Proof.
  unfold location_record. destruct (lap_start_stop st) as [l0 l1].
  destruct (is_position t la lo).
  - destruct (_normalize_timestamp t); [|discriminate].
    intros H. injection H as <-. simpl. lia.
  - intros H. injection H as <-. simpl. rewrite length_app. simpl. lia.
Qed.

Lemma read_line_lap_count (st st' : reader) (line : string) :
  read_line st line = Some st' ->
  List.length (lap (r_data st'))
  = (List.length (lap (r_data st)) + if pause_line line then 1 else 0)%nat.
Proof.
  unfold read_line, pause_line.
  destruct (substring 0 6 line =? "tp=lbs"); cbn [andb].
  { destruct (float_field line 6) as [t|]; [|discriminate].
    destruct (float_field line 3) as [la|]; [|discriminate].
    destruct (float_field line 4) as [lo|]; [|discriminate].
    intros H. rewrite (location_record_lap_count _ _ _ _ _ H).
    now destruct (is_position t la lo). }
  destruct (substring 0 6 line =? "tp=h-r").
  { destruct (int_float_field line 2); [|discriminate].
    destruct (int_field line 3); [|discriminate].
    destruct (_normalize_timestamp _); [|discriminate].
    intros H. injection H as <-. simpl. lia. }
  destruct (substring 0 6 line =? "tp=s-r").
  { destruct (int_float_field line 2); [|discriminate].
    destruct (int_field line 3); [|discriminate].
    destruct (_normalize_timestamp _); [|discriminate].
    intros H. injection H as <-. simpl. lia. }
  destruct (substring 0 7 line =? "tp=alti").
  { destruct (int_float_field line 2); [|discriminate].
    destruct (float_field line 3); [|discriminate].
    destruct (_normalize_timestamp _); [|discriminate].
    intros H. injection H as <-. simpl. lia. }
  intros H. injection H as <-. lia.
Qed.

Lemma read_lines_lap_count (f : list string) :
  forall st st',
    read_lines st f = Some st' ->
    List.length (lap (r_data st'))
    = (List.length (lap (r_data st)) + List.length (filter pause_line f))%nat.
Proof.
  induction f as [|line rest IH]; intros st st' H; simpl in H.
  - injection H as <-. simpl. lia.
  - destruct (read_line st line) as [st1|] eqn:E1; [|discriminate].
    rewrite (IH _ _ H), (read_line_lap_count _ _ _ E1). simpl.
    destruct (pause_line line); simpl; lia.
Qed.

(** X27.  Every location line that takes the pause branch closes exactly one
    lap, and the end of the file adds at most one more: the number of laps
    [read_file] returns is the number of such lines or that number plus
    one. *)
Theorem read_file_lap_count (f : list string) (d : dataset) :
  read_file f = Some d ->
  List.length (lap d) = List.length (filter pause_line f) \/
  List.length (lap d) = S (List.length (filter pause_line f)).
Proof.
  unfold read_file. intros H.
  destruct (read_lines reader_init f) as [st|] eqn:E; [|discriminate].
  pose proof (read_lines_lap_count f _ _ E) as C. simpl in C.
  destruct (lap_start_stop st) as [l0 l1]. injection H as <-. simpl.
  destruct (negb (Qeq_bool l0 0)); [right | left].
  - rewrite length_app. simpl. lia.
  - exact C.
Qed.

(** ** [generate_xml]: how many elements *)

Lemma count_tag_app (T : string) (t u : tree) :
  count_tag T (t ++ u) = (count_tag T t + count_tag T u)%nat.
Proof. unfold count_tag. now rewrite filter_app, length_app. Qed.

Lemma count_tag_list_set (T : string) (i : nat) (e e' : element) (t : tree) :
  nth_error t i = Some e -> tag e' = tag e ->
  count_tag T (list_set i e' t) = count_tag T t.
Proof.
  unfold count_tag.
  revert i. induction t as [|y tl IH]; intros [|i] H Ht;
    cbn [nth_error list_set filter] in *; try discriminate.
  - injection H as ->. rewrite Ht. now destruct (tag e =? T).
  - destruct (tag y =? T); cbn [List.length]; now rewrite (IH i H Ht).
Qed.

Lemma count_tag_update (T : string) (i : nat) (g : element -> element) (t : tree) :
  (forall e, tag (g e) = tag e) -> count_tag T (update i g t) = count_tag T t.
Proof.
  intros Hg. unfold update. destruct (nth_error t i) as [e|] eqn:E; [|reflexivity].
  now apply count_tag_list_set with e.
Qed.

Lemma adds_ret {A : Type} (T : string) (x : A) : adds T (ret x) 0.
Proof. intros t. exists x, t. split; [reflexivity | lia]. Qed.

Lemma adds_bind {A B : Type} (T : string) (m : build A) (k : A -> build B)
  (c1 c2 : nat) :
  adds T m c1 -> (forall x, adds T (k x) c2) -> adds T (bind m k) (c1 + c2).
Proof.
  intros Hm Hk t. unfold bind. destruct (Hm t) as (x & t1 & -> & C1).
  destruct (Hk x t1) as (y & t2 & E & C2). exists y, t2.
  split; [exact E | lia].
Qed.

Lemma adds_bind_lift {A B : Type} (T : string) (v : A) (k : A -> build B)
  (c : nat) :
  adds T (k v) c -> adds T (bind (lift (Some v)) k) c.
Proof. intros H t. rewrite bind_lift_some. apply H. Qed.

Lemma adds_SubElement (T : string) (p : nat) (tg : string) :
  adds T (SubElement p tg) (if tg =? T then 1 else 0).
Proof.
  intros t. unfold SubElement. eexists _, _. split; [reflexivity|].
  rewrite count_tag_update by reflexivity. rewrite count_tag_app.
  unfold count_tag at 2. simpl. now destruct (tg =? T).
Qed.

Lemma adds_Element (T : string) (tg : string) :
  adds T (Element tg) (if tg =? T then 1 else 0).
Proof.
  intros t. unfold Element. eexists _, _. split; [reflexivity|].
  rewrite count_tag_app. unfold count_tag at 2. simpl. now destruct (tg =? T).
Qed.

Lemma adds_set (T : string) (e : nat) (k : string) (v : text) :
  adds T (set e k v) 0.
Proof.
  intros t. unfold set. eexists _, _. split; [reflexivity|].
  rewrite count_tag_update by reflexivity. lia.
Qed.

Lemma adds_set_text (T : string) (e : nat) (v : text) :
  adds T (set_text e v) 0.
Proof.
  intros t. unfold set_text. eexists _, _. split; [reflexivity|].
  rewrite count_tag_update by reflexivity. lia.
Qed.

Lemma adds_eq {A : Type} (T : string) (m : build A) (c c' : nat) :
  adds T m c -> c = c' -> adds T m c'.
Proof. now intros H <-. Qed.

Lemma adds_leaf (T : string) (p : nat) (tg : string) (v : text) :
  adds T (leaf p tg v) (if tg =? T then 1 else 0).
Proof.
  unfold leaf. eapply adds_eq.
  - apply adds_bind; [apply adds_SubElement | intros; apply adds_set_text].
  - lia.
Qed.

Lemma adds_when (T : string) (b : bool) (m : build unit) (c : nat) :
  adds T m c -> c = 0%nat -> adds T (when b m) 0.
Proof. intros H ->. destruct b; [exact H | apply adds_ret]. Qed.

Lemma adds_for_each {A : Type} (T : string) (l : list A)
  (body : A -> build unit) (cnt : A -> nat) :
  (forall x, In x l -> adds T (body x) (cnt x)) ->
  adds T (for_each l body) (list_sum (map cnt l)).
Proof.
  induction l as [|x tl IH]; intros H; simpl; [apply adds_ret|].
  apply adds_bind; [apply H; now left|].
  intros _. apply IH. intros y Hy. apply H. now right.
Qed.

Ltac adds_step :=
  lazymatch goal with
  | |- adds _ (bind (lift (Some _)) _) _ => eapply adds_bind_lift
  | |- adds _ (bind _ _) _ => eapply adds_bind; [|intros ?]
  | |- adds _ (ret _) _ => eapply adds_ret
  | |- adds _ (leaf _ _ _) _ => eapply adds_leaf
  | |- adds _ (set _ _ _) _ => eapply adds_set
  | |- adds _ (set_text _ _) _ => eapply adds_set_text
  | |- adds _ (SubElement _ _) _ => eapply adds_SubElement
  | |- adds _ (Element _) _ => eapply adds_Element
  | |- adds _ (when _ _) _ => eapply adds_when
  | |- adds _ (version_block _ _ _ _ _) _ => unfold version_block
  | |- _ = 0%nat => vm_compute; reflexivity
  end.

Ltac adds_steps := repeat adds_step.

(** The cadence block of a point adds neither laps nor points. *)
Lemma adds_cadence (T : string) (opts : options) (Trackpoint : nat) (c : cell) :
  T = "Lap" \/ T = "Trackpoint" ->
  adds T
    (if opt_sport opts =? "Biking" then leaf Trackpoint "Cadence" (CellStr c)
     else if opt_sport opts =? "Running" then
       Extensions <~ SubElement Trackpoint "Extensions" ;;
       TPX <~ SubElement Extensions "TPX" ;;
       set TPX "xmlns"
         (Str "http://www.garmin.com/xmlschemas/ActivityExtension/v2") ;;;
       leaf TPX "RunCadence" (CellStr c)
     else ret tt) 0.
Proof.
  intros [-> | ->];
    (destruct (opt_sport opts =? "Biking");
     [eapply adds_eq; [apply adds_leaf | reflexivity]|];
     destruct (opt_sport opts =? "Running"); [|apply adds_ret];
     eapply adds_eq; [adds_steps | reflexivity]).
Qed.

Lemma adds_trackpoint (T : string) (Track : nat) (s0 s1 : Q) (rest : list Q)
  (opts : options) (line : row) :
  T = "Lap" \/ T = "Trackpoint" ->
  adds T (trackpoint Track (s0 :: s1 :: rest) opts line)
    (if T =? "Trackpoint"
     then (if within (s0 :: s1 :: rest) line then 1 else 0)
     else 0).
Proof.
  intros HT. unfold trackpoint, within. cbn [nth_error nth].
  apply adds_bind_lift.
  destruct (Qle_bool s0 (time line)); cbn [negb andb].
  2:{ eapply adds_eq; [apply adds_ret | now destruct (T =? "Trackpoint")]. }
  apply adds_bind_lift.
  destruct (Qle_bool (time line) s1); cbn [negb].
  2:{ eapply adds_eq; [apply adds_ret | now destruct (T =? "Trackpoint")]. }
  pose proof (adds_cadence T opts) as Cad.
  destruct HT as [-> | ->]; (eapply adds_eq;
    [ eapply adds_bind; [apply adds_SubElement | intros Trackpoint];
      eapply adds_bind; [apply adds_leaf | intros ?];
      eapply adds_bind; [eapply adds_when; [adds_steps | vm_compute; reflexivity] | intros ?];
      eapply adds_bind; [eapply adds_when; [adds_steps | vm_compute; reflexivity] | intros ?];
      eapply adds_bind; [eapply adds_when; [adds_steps | vm_compute; reflexivity] | intros ?];
      eapply adds_bind; [eapply adds_when; [adds_steps | vm_compute; reflexivity] | intros ?];
      eapply adds_when; [apply Cad; auto | reflexivity]
    | vm_compute; reflexivity ]).
Qed.

Lemma sum_indicator {A : Type} (p : A -> bool) (l : list A) :
  list_sum (map (fun x => if p x then 1 else 0)%nat l)
  = List.length (filter p l).
Proof.
  induction l as [|x tl IH]; simpl; [reflexivity|].
  destruct (p x); simpl; now rewrite IH.
Qed.

Lemma sum_zero {A : Type} (l : list A) :
  list_sum (map (fun _ => 0%nat) l) = 0%nat.
Proof. induction l; simpl; auto. Qed.

Lemma sum_one {A : Type} (l : list A) :
  list_sum (map (fun _ => 1%nat) l) = List.length l.
Proof. induction l; simpl; auto. Qed.

Lemma adds_lap_element (T : string) (Activity : nat) (data : list row)
  (opts : options) (stats : list Q) :
  T = "Lap" \/ T = "Trackpoint" ->
  (4 <= List.length stats)%nat ->
  adds T (lap_element Activity data opts stats)
    (if T =? "Lap" then 1 else List.length (filter (within stats) data)).
Proof.
  intros HT H.
  destruct stats as [|s0 [|s1 [|s2 [|s3 rest]]]]; simpl in H; try lia.
  unfold lap_element. cbn [nth_error].
  eapply adds_eq.
  - adds_steps.
    apply (adds_for_each T data _
             (fun line =>
                if (T =? "Trackpoint")%string
                then (if within (s0 :: s1 :: s2 :: s3 :: rest) line
                      then 1 else 0)
                else 0)%nat).
    intros line _. now apply adds_trackpoint.
  - destruct HT as [-> | ->]; cbn.
    + now rewrite sum_zero.
    + now rewrite sum_indicator.
Qed.

Lemma adds_generate_xml_body (T : string) (data : list row)
  (lap_stats : list (list Q)) (opts : options) :
  T = "Lap" \/ T = "Trackpoint" ->
  lap_stats <> [] ->
  Forall (fun stats => (4 <= List.length stats)%nat) lap_stats ->
  adds T (generate_xml_body data lap_stats opts)
    (list_sum
       (map (fun stats =>
               if (T =? "Lap")%string then 1
               else List.length (filter (within stats) data))%nat
          lap_stats)).
Proof.
  intros HT Ne F.
  destruct lap_stats as [|first_lap rest]; [contradiction|].
  assert (F1 : (4 <= List.length first_lap)%nat) by now inversion F.
  destruct first_lap as [|s0 fl]; [simpl in F1; lia|].
  unfold generate_xml_body. cbn [nth_error].
  eapply adds_eq.
  - adds_steps.
    apply (adds_for_each T ((s0 :: fl) :: rest) _
             (fun stats =>
                if (T =? "Lap")%string then 1
                else List.length (filter (within stats) data))%nat).
    intros stats Hin. apply adds_lap_element; [exact HT|].
    rewrite Forall_forall in F. now apply F.
  - destruct HT as [-> | ->]; cbn; lia.
Qed.

(** X28.  When [generate_xml] reports [OKAY], the document holds one [Lap]
    element for every lap and, summed over the laps, one [Trackpoint] for
    every merged record whose time lies within the bounds of the lap, both
    bounds included: a record on a bound shared by two laps is written
    under both. *)
Theorem generate_xml_lap_and_trackpoint_count (data : list row)
  (lap_stats : list (list Q)) (opts : options) :
  snd (generate_xml data lap_stats opts) = true ->
  count_tag "Lap" (fst (generate_xml data lap_stats opts))
  = List.length lap_stats /\
  count_tag "Trackpoint" (fst (generate_xml data lap_stats opts))
  = list_sum
      (map (fun stats => List.length (filter (within stats) data)) lap_stats).
Proof.
  intros Ok.
  assert (C : lap_stats <> [] /\
              Forall (fun stats => (4 <= List.length stats)%nat) lap_stats).
  { destruct (generate_xml_flag data lap_stats opts) as [_ Hko].
    destruct lap_stats as [|x tl] eqn:E.
    - rewrite Hko in Ok; [discriminate|].
      apply generate_xml_body_raises. now left.
    - split; [discriminate|].
      destruct (short_lap_dec (x :: tl)) as [F | S]; [exact F|].
      rewrite Hko in Ok; [discriminate|].
      apply generate_xml_body_raises. now right. }
  destruct C as [Ne F].
  unfold generate_xml. split.
  - destruct (adds_generate_xml_body "Lap" data lap_stats opts
                (or_introl eq_refl) Ne F []) as (x & t' & -> & C).
    cbn [fst]. rewrite C. cbn. now rewrite sum_one.
  - destruct (adds_generate_xml_body "Trackpoint" data lap_stats opts
                (or_intror eq_refl) Ne F []) as (x & t' & -> & C).
    cbn [fst]. rewrite C. reflexivity.
Qed.

(** ** The theorems above at sample inputs *)



Lemma read_file_laps_witness :
  Forall (fun l => exists start stop,
              l = [start; stop] /\ lap_ok (gps sample_data) start stop)
    (lap sample_data).
Proof.
  apply (read_file_laps sample_file sample_data). vm_compute. reflexivity.
Defined.

Lemma read_file_positions_witness :
  ascending (gps sample_data) /\ Forall stored_position (gps sample_data).
Proof.
  apply (read_file_positions sample_file sample_data). vm_compute. reflexivity.
Defined.

Lemma read_file_sensor_records_witness :
  Forall (sensor_record 3) (alti_s sample_data) /\
  Forall (sensor_record 5) (hr_s sample_data) /\
  Forall (sensor_record 6) (cad_s sample_data).
Proof.
  apply (read_file_sensor_records sample_file sample_data).
  vm_compute. reflexivity.
Defined.

Lemma read_file_lap_count_witness :
  List.length (lap sample_data) = List.length (filter pause_line sample_file) \/
  List.length (lap sample_data) = S (List.length (filter pause_line sample_file)).
Proof.
  apply (read_file_lap_count sample_file sample_data). vm_compute. reflexivity.
Defined.

Lemma filter_data_keeps_clean_dataset_witness :
  filter_data sample_data = (sample_data, true).
Proof.
  apply (filter_data_keeps_clean_dataset sample_data);
    repeat constructor.
Defined.

Lemma filter_data_removes_isolated_failures_witness :
  filter_data noisy_data
  = (mkData (gps noisy_data)
       (passing (out_of_range alti (-1000) 10000) (alti_s noisy_data))
       (passing (out_of_range hr 1 254) (hr_s noisy_data))
       (passing (out_of_range cad 0 254) (cad_s noisy_data))
       (lap noisy_data), true).
Proof.
  apply (filter_data_removes_isolated_failures noisy_data); simpl;
    try exact I.
  - split; [intros y [<- | [<- | []]]; reflexivity|].
    split; [intros y [<- | []]; reflexivity|].
    split; [intros y [] | exact I].
  - repeat split.
Defined.

Lemma calculate_lap_stats_after_prepare_witness :
  exists stats,
    calculate_lap_stats sample_prepared = Some stats /\
    Forall2 (lap_stat_of (gps sample_prepared)) (lap sample_prepared) stats.
Proof.
  apply (@calculate_lap_stats_after_prepare sample_math sample_options
           sample_file sample_prepared).
  vm_compute. reflexivity.
Defined.

Lemma generate_xml_after_prepare_witness :
  exists stats,
    calculate_lap_stats sample_prepared = Some stats /\
    (snd (generate_xml (merge_data sample_prepared) stats sample_options) = true <->
     lap sample_prepared <> [] /\
     Forall (fun l => exists start stop, l = [start; stop] /\ start < stop)
       (lap sample_prepared)).
Proof.
  apply (@generate_xml_after_prepare sample_math sample_options
           sample_file sample_prepared).
  vm_compute. reflexivity.
Defined.

Lemma merge_data_without_shared_timestamps_witness :
  merge_data noisy_data = sorted_by_time (all_records noisy_data).
Proof.
  apply (merge_data_without_shared_timestamps noisy_data).
  intros [|[|[|n]]] a b Ha Hb; vm_compute in Ha, Hb; try discriminate;
    injection Ha as <-; injection Hb as <-; intros E; discriminate E.
Defined.


Lemma generate_xml_lap_and_trackpoint_count_witness :
  count_tag "Lap"
    (fst (generate_xml
            [mkRow 1 (Num 40) (Num (-79)) Blank (Num 0) Blank Blank;
             mkRow 2 Blank Blank Blank Blank (Num 75) Blank;
             mkRow 3 (Num 41) (Num (-79)) Blank (Num 10) Blank Blank;
             mkRow 5 Blank Blank Blank Blank Blank (Num 80)]
            [[1; 3; 2; 10]] sample_options))
  = List.length [[1; 3; 2; 10]] /\
  count_tag "Trackpoint"
    (fst (generate_xml
            [mkRow 1 (Num 40) (Num (-79)) Blank (Num 0) Blank Blank;
             mkRow 2 Blank Blank Blank Blank (Num 75) Blank;
             mkRow 3 (Num 41) (Num (-79)) Blank (Num 10) Blank Blank;
             mkRow 5 Blank Blank Blank Blank Blank (Num 80)]
            [[1; 3; 2; 10]] sample_options))
  = list_sum
      (map (fun stats =>
              List.length
                (filter (within stats)
                   [mkRow 1 (Num 40) (Num (-79)) Blank (Num 0) Blank Blank;
                    mkRow 2 Blank Blank Blank Blank (Num 75) Blank;
                    mkRow 3 (Num 41) (Num (-79)) Blank (Num 10) Blank Blank;
                    mkRow 5 Blank Blank Blank Blank Blank (Num 80)]))
         [[1; 3; 2; 10]]).
Proof.
  apply (generate_xml_lap_and_trackpoint_count
           [mkRow 1 (Num 40) (Num (-79)) Blank (Num 0) Blank Blank;
            mkRow 2 Blank Blank Blank Blank (Num 75) Blank;
            mkRow 3 (Num 41) (Num (-79)) Blank (Num 10) Blank Blank;
            mkRow 5 Blank Blank Blank Blank Blank (Num 80)]
           [[1; 3; 2; 10]] sample_options).
  vm_compute. reflexivity.
Defined.

(** ** [main] from the command line *)

Lemma main_outcome_files {M : MathLib} (input_file : string) (opts : options)
  (f : list string) (fs : filesystem) :
  match main input_file opts f fs with
  | Exited fs' => fs' = fs
  | Finished fs' =>
      exists doc, fs' = ((input_file ++ ".tcx")%string, doc) :: fs
  end.
Proof.
  unfold main. destruct (prepare opts f) as [data|]; [|reflexivity].
  destruct (file_details data) as [[merged stats]|]; [|reflexivity].
  simpl. eauto.
Qed.

(** X29.  Run from the command line, the program either ends with the files
    on disk unchanged, or adds exactly one file; that file is named after
    the one file name on the command line (as given, or without a leading
    [.\]) with [.tcx] appended, and this only happens when that input file
    could be opened. *)
Theorem main_argv_outcome {M : MathLib} (argv : list string)
  (disk : string -> option (list string)) (fs : filesystem) :
  match main_argv argv disk fs with
  | Exited fs' => fs' = fs
  | Finished fs' =>
      exists name doc,
        name <> "" /\
        (In name argv \/ In (".\" ++ name)%string argv) /\
        disk name <> None /\
        fs' = ((name ++ ".tcx")%string, doc) :: fs
  end.
Proof.
  unfold main_argv, parse_arguments.
  destruct (parse_loop ("", mkOptions true false "Running") argv)
    as [[name opts]|] eqn:L; [|reflexivity].
  cbn [fst]. destruct (name =? "") eqn:E; [reflexivity|].
  apply String.eqb_neq in E.
  destruct (disk name) as [f|] eqn:D; [|reflexivity].
  pose proof (main_outcome_files name opts f fs) as O.
  destruct (main name opts f fs) as [fs'|fs']; [exact O|].
  destruct O as [doc ->]. exists name, doc.
  split; [exact E|]. split; [|split; [congruence | reflexivity]].
  destruct (parse_loop_result _ _ _ _ _ L) as (_ & _ & _ & _ & _ & N).
  destruct N as [-> | N]; [contradiction | exact N].
Qed.

(** ** [_vincenty]: six decimals *)


